(** * Verification of the version-bump script

    The repository holds one script in two variants:

    - [src/update-project-version.ts], run by Node (module [Node] below);
    - its port to Bun (module [Bun] below), which also accepts the
      abbreviations [p], [min] and [max].

    Each variant is embedded as a function on an explicit [world] (the
    manifest on disk, the two output streams, the readline interface and
    the exit code) that may end in an exception.  What the scripts call in
    the JavaScript runtime is modelled in the first part of the file:
    strings are the UTF-8 bytes of the JavaScript string, numbers are the
    IEEE 754 binary64 values with round-to-nearest-even written out, and
    the JSON codec, whose output no property here depends on, is a
    parameter of the development. *)

From Stdlib Require Import ZArith List Bool Ascii String Lia.
Import ListNotations.
Open Scope string_scope.
Open Scope Z_scope.

(** ** ECMAScript numbers *)

(** A Number is NaN, an infinity, negative zero, or the finite value
    [n / 2^d].  The representation is canonical: [d = 0] (an integer) or
    [n] is odd; positive zero is [Fin 0 0]. *)
Inductive number : Type :=
| NaN
| Infinity (negative : bool)
| NegZero
| Fin (n : Z) (d : N).

Definition number_eq_dec (x y : number) : {x = y} + {x <> y}.
Proof. repeat decide equality. Defined.

Definition of_int (z : Z) : number := Fin z 0.

(** The largest [e] with [2^e <= a / b], for positive [a] and [b]. *)
Definition floor_log2 (a b : Z) : Z :=
  let e0 := Z.log2 a - Z.log2 b in
  let below := if 0 <=? e0 then a <? b * 2 ^ e0 else a * 2 ^ (- e0) <? b in
  if below then e0 - 1 else e0.

(** [m * 2^e] in canonical form ([m <> 0]). *)
Definition scale2 (m e : Z) : number :=
  if 0 <=? e then Fin (m * 2 ^ e) 0
  else
    let g := Z.gcd m (2 ^ (- e)) in
    Fin (m / g) (Z.to_N (- e - Z.log2 g)).

(** Round-half-to-even of the quotient [num / den] to an integer. *)
Definition round_half_even (num den : Z) : Z :=
  let q := num / den in
  let r := num mod den in
  if 2 * r <? den then q
  else if den <? 2 * r then q + 1
  else if Z.even q then q else q + 1.

(** The binary64 value nearest to the rational [a / b] ([0 < b]), ties to
    even: 53 significant bits, exponents from -1022 (below which the
    spacing stays [2^-1074]) to 1023 (above which the result is infinite). *)
Definition round64 (a b : Z) : number :=
  if a =? 0 then Fin 0 0
  else
    let negative := a <? 0 in
    let a' := Z.abs a in
    let e := floor_log2 a' b in
    let sh := Z.max e (-1022) - 52 in
    let q :=
      if 0 <=? sh then round_half_even a' (b * 2 ^ sh)
      else round_half_even (a' * 2 ^ (- sh)) b in
    if q =? 0 then (if negative then NegZero else Fin 0 0)
    else if (972 <=? sh) || ((sh =? 971) && (q =? 2 ^ 53)) then Infinity negative
    else scale2 (if negative then - q else q) sh.

(** [x + 1], as the postfix [++] computes it on a Number. *)
Definition add1 (x : number) : number :=
  match x with
  | NaN => NaN
  | Infinity s => Infinity s
  | NegZero => Fin 1 0
  | Fin n d => round64 (n + 2 ^ Z.of_N d) (2 ^ Z.of_N d)
  end.

Definition MAX_SAFE_INTEGER : Z := 2 ^ 53 - 1.

(** ** Strings *)

(** A JavaScript string is held as the bytes of its UTF-8 encoding. *)

Definition code (c : ascii) : Z := Z.of_N (N_of_ascii c).

Definition is_digit (c : ascii) : bool := (48 <=? code c) && (code c <=? 57).

Definition digit_value (c : ascii) : Z := code c - 48.

Definition digit_char (d : Z) : ascii := ascii_of_N (Z.to_N (48 + d)).

Fixpoint all_digits (s : string) : bool :=
  match s with
  | EmptyString => true
  | String c r => is_digit c && all_digits r
  end.

Fixpoint decimal_aux (fuel : nat) (z : Z) : string :=
  match fuel with
  | O => ""
  | S f =>
      (if z <? 10 then "" else decimal_aux f (z / 10))
        ++ String (digit_char (z mod 10)) ""
  end.

(** The decimal digits of a non-negative integer, without leading zeros. *)
Definition decimal (z : Z) : string := decimal_aux (S (Z.to_nat (Z.log2 z))) z.

Fixpoint zeros (n : nat) : string :=
  match n with
  | O => ""
  | S m => String "0" (zeros m)
  end.

(** The value of a digit string read in the given radix, most significant
    digit first. *)
Fixpoint digits_value_from (radix acc : Z) (digit : ascii -> Z) (s : string) : Z :=
  match s with
  | EmptyString => acc
  | String c r => digits_value_from radix (radix * acc + digit c) digit r
  end.

Definition digits_value (s : string) : Z := digits_value_from 10 0 digit_value s.

(** The longest prefix of decimal digits, and what follows it. *)
Fixpoint digits_prefix (s : string) : string * string :=
  match s with
  | EmptyString => ("", "")
  | String c r =>
      if is_digit c then let (ds, rest) := digits_prefix r in (String c ds, rest)
      else ("", s)
  end.

Definition string_rev (s : string) : string :=
  string_of_list_ascii (List.rev (list_ascii_of_string s)).

(** WhiteSpace and LineTerminator code points (TAB, LF, VT, FF, CR, SP,
    U+00A0, U+1680, U+2000..U+200A, U+2028, U+2029, U+202F, U+205F, U+3000,
    U+FEFF) by the bytes of their encoding. *)
Definition is_ws1 (c1 : ascii) : bool :=
  let a := code c1 in ((9 <=? a) && (a <=? 13)) || (a =? 32).

Definition is_ws2 (c1 c2 : ascii) : bool :=
  (code c1 =? 194) && (code c2 =? 160).

Definition is_ws3 (c1 c2 c3 : ascii) : bool :=
  let a := code c1 in let b := code c2 in let c := code c3 in
  ((a =? 225) && (b =? 154) && (c =? 128))
  || ((a =? 226) && (b =? 128)
      && (((128 <=? c) && (c <=? 138)) || (c =? 168) || (c =? 169) || (c =? 175)))
  || ((a =? 226) && (b =? 129) && (c =? 159))
  || ((a =? 227) && (b =? 128) && (c =? 128))
  || ((a =? 239) && (b =? 187) && (c =? 191)).

(** Drop leading white space; with [backwards] the string is read from its
    end, so multi-byte code points arrive last byte first. *)
Fixpoint drop_ws (backwards : bool) (s : string) : string :=
  match s with
  | EmptyString => s
  | String c1 r1 =>
      if is_ws1 c1 then drop_ws backwards r1
      else
        match r1 with
        | EmptyString => s
        | String c2 r2 =>
            if (if backwards then is_ws2 c2 c1 else is_ws2 c1 c2)
            then drop_ws backwards r2
            else
              match r2 with
              | EmptyString => s
              | String c3 r3 =>
                  if (if backwards then is_ws3 c3 c2 c1 else is_ws3 c1 c2 c3)
                  then drop_ws backwards r3
                  else s
              end
        end
  end.

(** [String.prototype.trim]. *)
Definition trim (s : string) : string :=
  string_rev (drop_ws true (string_rev (drop_ws false s))).

(** [String.prototype.split] with a one-character separator: the pieces
    between the occurrences of [sep], in order; never the empty list. *)
Fixpoint split (sep : ascii) (s : string) : list string :=
  match s with
  | EmptyString => [""]
  | String c r =>
      if Ascii.eqb c sep then "" :: split sep r
      else
        match split sep r with
        | piece :: pieces => String c piece :: pieces
        | [] => [String c ""]
        end
  end.

(** ** Number(string) *)

(** The value of the digit [c] in radix 2, 8 or 16, if it is one. *)
Definition radix_digit (radix : Z) (c : ascii) : option Z :=
  let a := code c in
  let v :=
    if (48 <=? a) && (a <=? 57) then a - 48
    else if (97 <=? a) && (a <=? 102) then a - 87
    else if (65 <=? a) && (a <=? 70) then a - 55
    else 16 in
  if v <? radix then Some v else None.

Fixpoint radix_value (radix acc : Z) (s : string) : option Z :=
  match s with
  | EmptyString => Some acc
  | String c r =>
      match radix_digit radix c with
      | Some v => radix_value radix (radix * acc + v) r
      | None => None
      end
  end.

(** NonDecimalIntegerLiteral: [0x], [0o] or [0b] (either case) and at least
    one digit of that radix. *)
Definition non_decimal_literal (s : string) : option Z :=
  match s with
  | String "0" (String p (String c r)) =>
      let radix :=
        if (Ascii.eqb p "x" || Ascii.eqb p "X")%bool then 16
        else if (Ascii.eqb p "o" || Ascii.eqb p "O")%bool then 8
        else if (Ascii.eqb p "b" || Ascii.eqb p "B")%bool then 2
        else 0 in
      if radix =? 0 then None else radix_value radix 0 (String c r)
  | _ => None
  end.

(** ExponentPart_opt at the end of a literal: the exponent, or [None] when
    what is left is not an exponent part. *)
Definition exponent_part (s : string) : option Z :=
  match s with
  | EmptyString => Some 0
  | String e r =>
      if (Ascii.eqb e "e" || Ascii.eqb e "E")%bool then
        let (negative, r') :=
          match r with
          | String "+" t => (false, t)
          | String "-" t => (true, t)
          | _ => (false, r)
          end in
        match r' with
        | EmptyString => None
        | _ => if all_digits r'
               then Some (if negative then - digits_value r' else digits_value r')
               else None
        end
      else None
  end.

(** StrUnsignedDecimalLiteral other than [Infinity]: the digits [m] and the
    power of ten [k] with mathematical value [m * 10^k]. *)
Definition unsigned_decimal_literal (s : string) : option (Z * Z) :=
  let (int_digits, rest) := digits_prefix s in
  let (frac_digits, rest') :=
    match rest with
    | String "." t => digits_prefix t
    | _ => ("", rest)
    end in
  match int_digits ++ frac_digits with
  | EmptyString => None
  | ds =>
      match exponent_part rest' with
      | Some e => Some (digits_value ds, e - Z.of_nat (String.length frac_digits))
      | None => None
      end
  end.

(** The Number nearest to [(-1)^negative * m * 10^k]. *)
Definition of_decimal (negative : bool) (m k : Z) : number :=
  if m =? 0 then (if negative then NegZero else Fin 0 0)
  else
    let m' := if negative then - m else m in
    if 0 <=? k then round64 (m' * 10 ^ k) 1 else round64 m' (10 ^ (- k)).

(** StrDecimalLiteral: an optional sign, then [Infinity] or an unsigned
    decimal literal. *)
Definition decimal_literal (s : string) : number :=
  let (negative, body) :=
    match s with
    | String "+" t => (false, t)
    | String "-" t => (true, t)
    | _ => (false, s)
    end in
  if String.eqb body "Infinity" then Infinity negative
  else
    match unsigned_decimal_literal body with
    | Some (m, k) => of_decimal negative m k
    | None => NaN
    end.

(** [Number(s)], that is StringToNumber: white space is trimmed, the empty
    string is [+0], and what is not a numeric literal is [NaN]. *)
Definition Number (s : string) : number :=
  match trim s with
  | EmptyString => Fin 0 0
  | t =>
      match non_decimal_literal t with
      | Some v => round64 v 1
      | None => decimal_literal t
      end
  end.

(** ** Number::toString *)

Definition digit_count (z : Z) : Z := Z.of_nat (String.length (decimal z)).

(** [n] with [10^(n-1) <= a / b < 10^n], for positive [a] and [b]. *)
Definition decimal_exponent (a b : Z) : Z :=
  if b <=? a then digit_count (a / b)
  else
    let l := digit_count (b / a) in
    if b <=? a * 10 ^ (l - 1) then 2 - l else 1 - l.

(** Is [s * 10^p] a decimal that reads back as [x]? *)
Definition reads_back (x : number) (s p : Z) : bool :=
  if number_eq_dec (if 0 <=? p then round64 (s * 10 ^ p) 1 else round64 s (10 ^ (- p))) x
  then true else false.

(** The [k]-digit decimals [s * 10^(n-k)] nearest to [a / b] from below and
    from above that read back as [x]; the nearer one first, the even one on
    a tie. *)
Definition digit_candidates (x : number) (a b n k : Z) : list Z :=
  let p := n - k in
  let num := if 0 <=? p then a else a * 10 ^ (- p) in
  let den := if 0 <=? p then b * 10 ^ p else b in
  let lo := num / den in
  let r := num mod den in
  let ok s := (10 ^ (k - 1) <=? s) && (s <=? 10 ^ k) && reads_back x s p in
  let lo_first := (2 * r <? den) || ((2 * r =? den) && Z.even lo) in
  filter ok (if lo_first then [lo; lo + 1] else [lo + 1; lo]).

(** The least number of digits [k], from [k] on, with a decimal
    [s * 10^(n-k)] that reads back as [x], and that [s].  Seventeen digits
    always read back, so a search from 1 with fuel 17 does not run out. *)
Fixpoint shortest_digits (fuel : nat) (x : number) (a b n k : Z) : Z * Z :=
  match fuel with
  | O => (k, 0)
  | S f =>
      match digit_candidates x a b n k with
      | s :: _ => (k, s)
      | [] => shortest_digits f x a b n (k + 1)
      end
  end.

Definition string_take (n : Z) (s : string) : string := substring 0 (Z.to_nat n) s.
Definition string_drop (n : Z) (s : string) : string :=
  substring (Z.to_nat n) (String.length s - Z.to_nat n) s.

(** The text of the positive Number [x = a / b]: its shortest digits [s]
    ([k] of them) and decimal exponent [n], laid out as ECMAScript does. *)
Definition positive_toString (x : number) (a b : Z) : string :=
  let n0 := decimal_exponent a b in
  let (k, s0) := shortest_digits 17 x a b n0 1 in
  let (n, s) := if s0 =? 10 ^ k then (n0 + 1, 10 ^ (k - 1)) else (n0, s0) in
  let ds := decimal s in
  if (k <=? n) && (n <=? 21) then ds ++ zeros (Z.to_nat (n - k))
  else if (0 <? n) && (n <=? 21) then string_take n ds ++ "." ++ string_drop n ds
  else if (-6 <? n) && (n <=? 0) then "0." ++ zeros (Z.to_nat (- n)) ++ ds
  else
    let e := n - 1 in
    let exponent := (if e <? 0 then "-" else "+") ++ decimal (Z.abs e) in
    if k =? 1 then ds ++ "e" ++ exponent
    else string_take 1 ds ++ "." ++ string_drop 1 ds ++ "e" ++ exponent.

(** [Number::toString(x)] in radix 10, which a template literal applies to
    a Number. *)
Definition Number_toString (x : number) : string :=
  match x with
  | NaN => "NaN"
  | NegZero => "0"
  | Infinity false => "Infinity"
  | Infinity true => "-Infinity"
  | Fin n d =>
      if n =? 0 then "0"
      else
        (if n <? 0 then "-" else "")
          ++ positive_toString (Fin (Z.abs n) d) (Z.abs n) (2 ^ Z.of_N d)
  end.

(** ** Values, exceptions and the world *)

Set Warnings "-register-all".

(** The values the scripts handle: what [JSON.parse] returns (an object is
    its properties in order), [undefined], and the promise that
    [BunFile.exists] returns. *)
Inductive value : Type :=
| Undefined
| Null
| Bool (b : bool)
| Num (x : number)
| Str (s : string)
| Arr (items : list value)
| Obj (props : list (string * value))
| Promise (settled : value).

Definition ToBoolean (v : value) : bool :=
  match v with
  | Undefined | Null => false
  | Bool b => b
  | Num NaN | Num NegZero => false
  | Num (Fin n _) => negb (n =? 0)
  | Num (Infinity _) => true
  | Str s => negb (String.eqb s "")
  | Arr _ | Obj _ | Promise _ => true
  end.

Inductive errno : Type := ENOENT | EACCES.

Inductive exception : Type :=
| Error (message : string)
| SystemError (code : errno) (message : string)
| SyntaxError (message : string)
| TypeError (message : string).

Definition message_of (e : exception) : string :=
  match e with
  | Error m | SystemError _ m | SyntaxError m | TypeError m => m
  end.

Inductive completion (A : Type) : Type :=
| Normal (a : A)
| Throw (e : exception).
Arguments Normal {A} a.
Arguments Throw {A} e.

(** What the engine supplies and no property below depends on: the JSON
    codec ([JSON_parse] gives the value, or the message of the SyntaxError
    it throws; [JSON_stringify v] stands for [JSON.stringify(v, null, 2)])
    and the wording of the errors the engine raises itself. *)
Record runtime : Type := {
  JSON_parse : string -> value + string;
  JSON_stringify : value -> string;
  errno_message : errno -> string;
  type_error_message : value -> string -> string
}.

(** The manifest [./package.json] on disk. *)
Inductive file_state : Type :=
| Absent
| Unreadable
| Contents (text : string).

Record world : Type := {
  manifest : file_state;
  stdout : list string;
  stderr : list string;
  rl_open : bool;
  exit_code : option Z
}.

Definition set_manifest (f : file_state) (w : world) : world :=
  {| manifest := f; stdout := stdout w; stderr := stderr w;
     rl_open := rl_open w; exit_code := exit_code w |}.

(** [console.log(line)]: one more line on the standard output. *)
Definition console_log (line : string) (w : world) : world :=
  {| manifest := manifest w; stdout := stdout w ++ [line]; stderr := stderr w;
     rl_open := rl_open w; exit_code := exit_code w |}.

(** [rl.question(query, ...)] writes its query to the standard output. *)
Definition rl_query (query : string) (w : world) : world := console_log query w.

(** [console.error(line)]: one more line on the standard error. *)
Definition console_error (line : string) (w : world) : world :=
  {| manifest := manifest w; stdout := stdout w; stderr := stderr w ++ [line];
     rl_open := rl_open w; exit_code := exit_code w |}.

Definition set_rl_open (b : bool) (w : world) : world :=
  {| manifest := manifest w; stdout := stdout w; stderr := stderr w;
     rl_open := b; exit_code := exit_code w |}.

Definition process_exit (status : Z) (w : world) : world :=
  {| manifest := manifest w; stdout := stdout w; stderr := stderr w;
     rl_open := rl_open w; exit_code := Some status |}.

(** A computation reads and changes the world and completes normally or
    abruptly. *)
Definition M (A : Type) : Type := world -> completion A * world.

Definition ret {A} (a : A) : M A := fun w => (Normal a, w).
Definition throw {A} (e : exception) : M A := fun w => (Throw e, w).
Definition lift {A} (c : completion A) : M A := fun w => (c, w).
Definition bind {A B} (m : M A) (k : A -> M B) : M B :=
  fun w =>
    match m w with
    | (Normal a, w') => k a w'
    | (Throw e, w') => (Throw e, w')
    end.
Definition modify (f : world -> world) : M unit := fun w => (Normal tt, f w).

Declare Scope js_scope.
Delimit Scope js_scope with js.
Notation "x <- m ;; k" := (bind m (fun x => k))
  (at level 61, m at next level, right associativity) : js_scope.
Notation "m ;; k" := (bind m (fun _ => k))
  (at level 61, right associativity) : js_scope.

(** *** Properties of objects *)

Fixpoint lookup (key : string) (props : list (string * value)) : option value :=
  match props with
  | [] => None
  | (k, v) :: rest => if String.eqb k key then Some v else lookup key rest
  end.

(** Assignment to a property: an existing one keeps its place, a new one
    goes last. *)
Fixpoint assign (key : string) (v : value) (props : list (string * value))
  : list (string * value) :=
  match props with
  | [] => [(key, v)]
  | (k, v') :: rest =>
      if String.eqb k key then (k, v) :: rest else (k, v') :: assign key v rest
  end.

(** [base.key] for a [key] that no prototype defines (such as [version]):
    reading it off [undefined] or [null] is a TypeError, off anything but
    an object holding it gives [undefined]. *)
Definition get_property (rt : runtime) (base : value) (key : string) : completion value :=
  match base with
  | Undefined | Null => Throw (TypeError (type_error_message rt base key))
  | Obj props =>
      match lookup key props with
      | Some v => Normal v
      | None => Normal Undefined
      end
  | _ => Normal Undefined
  end.

(** [base.key = v]; only objects reach the assignment in the scripts. *)
Definition set_property (base : value) (key : string) (v : value) : value :=
  match base with
  | Obj props => Obj (assign key v props)
  | _ => base
  end.

(** The receiver of [v.split(".")]: the string method is found when [v]
    is a string; any other value from [JSON.parse] has no callable
    [split], a TypeError. *)
Definition split_receiver (rt : runtime) (v : value) : completion string :=
  match v with
  | Str s => Normal s
  | _ => Throw (TypeError (type_error_message rt v "split"))
  end.

(** *** Conversions *)

Fixpoint join (sep : string) (l : list string) : string :=
  match l with
  | [] => ""
  | [x] => x
  | x :: rest => x ++ sep ++ join sep rest
  end.

(** [ToString(v)], which a template literal applies to [v]. *)
Fixpoint ToString (v : value) : string :=
  match v with
  | Undefined => "undefined"
  | Null => "null"
  | Bool true => "true"
  | Bool false => "false"
  | Num x => Number_toString x
  | Str s => s
  | Arr items =>
      join ","
        ((fix elements (l : list value) : list string :=
            match l with
            | [] => []
            | (Undefined | Null) :: rest => "" :: elements rest
            | item :: rest => ToString item :: elements rest
            end) items)
  | Obj _ => "[object Object]"
  | Promise _ => "[object Promise]"
  end.

(** [ToNumber(v)]. *)
Definition ToNumber (v : value) : number :=
  match v with
  | Undefined => NaN
  | Null => Fin 0 0
  | Bool true => Fin 1 0
  | Bool false => Fin 0 0
  | Num x => x
  | Str s => Number s
  | Arr _ | Obj _ | Promise _ => Number (ToString v)
  end.

(** *** What the two scripts share by construction *)

(** The postfix [v++] as a statement: [v] becomes [ToNumber(v) + 1]. *)
Definition increment (v : value) : value := Num (add1 (ToNumber v)).

(** [let [major, minor, patch] = parts.map(Number)]: a variable past the
    end of the array is [undefined]. *)
Definition destructure (parts : list string) : value * value * value :=
  let numbers := map (fun part => Num (Number part)) parts in
  (nth 0 numbers Undefined, nth 1 numbers Undefined, nth 2 numbers Undefined).

(** [`${major}.${minor}.${patch}`]. *)
Definition template (v : value * value * value) : string :=
  let '(major, minor, patch) := v in
  ToString major ++ "." ++ ToString minor ++ "." ++ ToString patch.

Definition quoted (s : string) : string := String "034" (s ++ String "034" "").

Definition invalid_type_message : string :=
  "❎ Invalid version type. Use " ++ quoted "patch" ++ ", " ++ quoted "minor"
    ++ ", or " ++ quoted "major" ++ ".".

Definition success_message (currentVersion newVersion : value) : string :=
  "✅ Successfully updated version: " ++ ToString currentVersion
    ++ " → " ++ ToString newVersion.

Definition prompt : string :=
  "Which version do you want to update (patch/minor/major)? ".

Definition zero : value := Num (Fin 0 0).

(** [JSON.parse(text)]. *)
Definition parse (rt : runtime) (text : string) : completion value :=
  match JSON_parse rt text with
  | inl v => Normal v
  | inr message => Throw (SyntaxError message)
  end.

(** ** The vocabulary of the specification *)

(** The increment kinds. *)
Inductive kind : Type := Patch | Minor | Major.

(** The increment rule in the specification's words: the incremented
    component increases by one, those below it reset to zero, those above
    it are unchanged. *)
Definition spec_increment (k : kind) (v : Z * Z * Z) : Z * Z * Z :=
  let '(major, minor, patch) := v in
  match k with
  | Patch => (major, minor, patch + 1)
  | Minor => (major, minor + 1, 0)
  | Major => (major + 1, 0, 0)
  end.

(** The version string [major.minor.patch] of a triple. *)
Definition version (v : Z * Z * Z) : string :=
  let '(major, minor, patch) := v in
  decimal major ++ "." ++ decimal minor ++ "." ++ decimal patch.

(** A triple of non-negative integers. *)
Definition valid (v : Z * Z * Z) : Prop :=
  let '(major, minor, patch) := v in 0 <= major /\ 0 <= minor /\ 0 <= patch.

(** A triple of integers from 0 to [Number.MAX_SAFE_INTEGER]. *)
Definition safe (v : Z * Z * Z) : Prop :=
  let '(major, minor, patch) := v in
  0 <= major <= MAX_SAFE_INTEGER /\
  0 <= minor <= MAX_SAFE_INTEGER /\
  0 <= patch <= MAX_SAFE_INTEGER.

(** Semantic-version precedence: major, then minor, then patch. *)
Definition precedes (v v' : Z * Z * Z) : Prop :=
  let '(major, minor, patch) := v in
  let '(major', minor', patch') := v' in
  major < major' \/
  (major = major' /\ (minor < minor' \/ (minor = minor' /\ patch < patch'))).



(** The three arms that the [switch] of either script has, by the kind
    they serve. *)
Definition bumped (k : kind) (v : value * value * value) : value * value * value :=
  let '(major, minor, patch) := v in
  match k with
  | Patch => (major, minor, increment patch)
  | Minor => (major, increment minor, zero)
  | Major => (increment major, zero, zero)
  end.

(** ** The Node script, [src/update-project-version.ts] *)

Module Node.
Section Script.
Variable rt : runtime.
Open Scope js_scope.

(** [fs.readFileSync("./package.json", "utf8")]. *)
Definition readFileSync : M string :=
  fun w =>
    match manifest w with
    | Contents text => (Normal text, w)
    | Absent => (Throw (SystemError ENOENT (errno_message rt ENOENT)), w)
    | Unreadable => (Throw (SystemError EACCES (errno_message rt EACCES)), w)
    end.

(** [fs.writeFileSync("./package.json", text)]. *)
Definition writeFileSync (text : string) : M unit :=
  modify (set_manifest (Contents text)).

(** The [switch (type)] of lines 58-79. *)
Definition bump (type : string) (v : value * value * value)
  : completion (value * value * value) :=
  let '(major, minor, patch) := v in
  if String.eqb type "patch" then Normal (major, minor, increment patch)
  else if String.eqb type "minor" then Normal (major, increment minor, zero)
  else if String.eqb type "major" then Normal (increment major, zero, zero)
  else Throw (Error invalid_type_message).

(** Lines 55-82, from the current version string to the new one:
    [split], [map(Number)], the destructuring, the [switch] and the
    template literal. *)
Definition next_version (type currentVersion : string) : completion string :=
  match bump type (destructure (split "." currentVersion)) with
  | Normal v => Normal (template v)
  | Throw e => Throw e
  end.

(** The increment that the script takes [type] to name, if any. *)
Definition kind_of (type : string) : option kind :=
  if String.eqb type "patch" then Some Patch
  else if String.eqb type "minor" then Some Minor
  else if String.eqb type "major" then Some Major
  else None.

Definition updateVersion (type : string) : M unit :=
  text <- readFileSync ;;
  packageJson <- lift (parse rt text) ;;
  currentVersion <- lift (get_property rt packageJson "version") ;;
  receiver <- lift (split_receiver rt currentVersion) ;;
  assigned <- lift (next_version type receiver) ;;
  let packageJson := set_property packageJson "version" (Str assigned) in
  writeFileSync (JSON_stringify rt packageJson) ;;
  newVersion <- lift (get_property rt packageJson "version") ;;
  modify (console_log (success_message currentVersion newVersion)).

(** [startScript], for the line [answer] that the user submits: the prompt,
    then the callback of [rl.question] with its [try], [catch] and
    [finally]. *)
Definition startScript (answer : string) (w : world) : world :=
  let w := set_rl_open true w in
  let w := rl_query prompt w in
  let (result, w) := updateVersion (trim answer) w in
  let w :=
    match result with
    | Normal _ => w
    | Throw error => console_error (message_of error) w
    end in
  process_exit 1 (set_rl_open false w).

End Script.
End Node.

(** ** The Bun script *)

Module Bun.
Section Script.
Variable rt : runtime.
Open Scope js_scope.

(** [file.exists()]: a promise of whether the file is there. *)
Definition exists_ : M value :=
  fun w =>
    (Normal (Promise (Bool match manifest w with Absent => false | _ => true end)), w).

(** [await file.json()]. *)
Definition json : M value :=
  fun w =>
    match manifest w with
    | Contents text => (parse rt text, w)
    | Absent => (Throw (SystemError ENOENT (errno_message rt ENOENT)), w)
    | Unreadable => (Throw (SystemError EACCES (errno_message rt EACCES)), w)
    end.

(** [await Bun.write("./package.json", text)]. *)
Definition write (text : string) : M unit :=
  modify (set_manifest (Contents text)).

(** The [switch (type)] of lines 63-89. *)
Definition bump (type : string) (v : value * value * value)
  : completion (value * value * value) :=
  let '(major, minor, patch) := v in
  if (String.eqb type "p" || String.eqb type "patch")%bool
  then Normal (major, minor, increment patch)
  else if (String.eqb type "min" || String.eqb type "minor")%bool
  then Normal (major, increment minor, zero)
  else if (String.eqb type "max" || String.eqb type "major")%bool
  then Normal (increment major, zero, zero)
  else Throw (Error invalid_type_message).

(** Lines 60-92, from the current version string to the new one:
    [split], [map(Number)], the destructuring, the [switch] and the
    template literal. *)
Definition next_version (type currentVersion : string) : completion string :=
  match bump type (destructure (split "." currentVersion)) with
  | Normal v => Normal (template v)
  | Throw e => Throw e
  end.

(** The increment that the script takes [type] to name, if any. *)
Definition alias_of (type : string) : option kind :=
  if (String.eqb type "p" || String.eqb type "patch")%bool then Some Patch
  else if (String.eqb type "min" || String.eqb type "minor")%bool then Some Minor
  else if (String.eqb type "max" || String.eqb type "major")%bool then Some Major
  else None.

(** Lines 51-53: [if (!file.exists()) throw ...]; the promise is not
    awaited. *)
Definition guard : M unit :=
  found <- exists_ ;;
  if negb (ToBoolean found)
  then throw (Error "package.json file not found")
  else ret tt.

Definition updateVersion (type : string) : M unit :=
  guard ;;
  packageJson <- json ;;
  currentVersion <- lift (get_property rt packageJson "version") ;;
  receiver <- lift (split_receiver rt currentVersion) ;;
  assigned <- lift (next_version type receiver) ;;
  let packageJson := set_property packageJson "version" (Str assigned) in
  write (JSON_stringify rt packageJson) ;;
  newVersion <- lift (get_property rt packageJson "version") ;;
  modify (console_log (success_message currentVersion newVersion)).

(** [startScript], for the line [answer] that the user submits: the prompt,
    then the callback of [rl.question] with its [try], [catch] and
    [finally]. *)
Definition startScript (answer : string) (w : world) : world :=
  let w := set_rl_open true w in
  let w := rl_query prompt w in
  let (result, w) := updateVersion (trim answer) w in
  let w :=
    match result with
    | Normal _ => w
    | Throw error => console_error (message_of error) w
    end in
  process_exit 1 w.

End Script.
End Bun.

(** ** Worlds and a runtime for the scenarios *)

(** The world after a successful update of the manifest [Obj props] from
    the version [old] to the version [new]. *)
Definition updated (rt : runtime) (props : list (string * value))
  (old new : string) (w : world) : world :=
  console_log (success_message (Str old) (Str new))
    (set_manifest
       (Contents (JSON_stringify rt (Obj (assign "version" (Str new) props)))) w).

Definition newline : string := String "010" "".

(** The manifest of the specification's scenario, with the version
    string [v]. *)
Definition scenario_props (v : string) : list (string * value) :=
  [("version", Str v); ("name", Str "x")].

Definition scenario_text (v : string) : string :=
  "{" ++ quoted "version" ++ ": " ++ quoted v ++ ", "
      ++ quoted "name" ++ ": " ++ quoted "x" ++ "}".

Definition flat_member (member : string * value) : string :=
  "  " ++ quoted (fst member) ++ ": "
       ++ match snd member with
          | Str s => quoted s
          | _ => "null"
          end.

(** A runtime that is enough for the scenario: its parser knows the
    scenario's manifest, its printer the records of strings. *)
Definition scenario_runtime (v : string) : runtime := {|
  JSON_parse := fun text =>
    if String.eqb text (scenario_text v) then inl (Obj (scenario_props v))
    else inr "Unexpected token";
  JSON_stringify := fun record =>
    match record with
    | Obj props =>
        "{" ++ newline ++ join ("," ++ newline) (map flat_member props)
            ++ newline ++ "}"
    | _ => "null"
    end;
  errno_message := fun code =>
    match code with
    | ENOENT => "ENOENT: no such file or directory, open './package.json'"
    | EACCES => "EACCES: permission denied, open './package.json'"
    end;
  type_error_message := fun _ key => "Cannot read properties (reading '" ++ key ++ "')"
|}.

(** The world before the script runs. *)
Definition initial (f : file_state) : world :=
  {| manifest := f; stdout := []; stderr := []; rl_open := false; exit_code := None |}.

(** The world in which the scenario's manifest with the version [v] is on
    disk. *)
Definition scenario_world (v : string) : world :=
  initial (Contents (scenario_text v)).

(** The ways in which a run of [updateVersion] on [type] in the world [w]
    ends, [next] being the version transformation of the script: abruptly,
    with the world as it was, or normally, with the manifest rewritten. *)
Inductive outcome (rt : runtime) (type : string) (w : world)
  (next : string -> string -> completion string)
  : completion unit * world -> Prop :=
| missing code :
    manifest w = match code with ENOENT => Absent | EACCES => Unreadable end ->
    outcome rt type w next (Throw (SystemError code (errno_message rt code)), w)
| unparsed text message :
    manifest w = Contents text ->
    JSON_parse rt text = inr message ->
    outcome rt type w next (Throw (SyntaxError message), w)
| mistyped text packageJson message :
    manifest w = Contents text ->
    JSON_parse rt text = inl packageJson ->
    (forall props s, packageJson = Obj props -> lookup "version" props <> Some (Str s)) ->
    outcome rt type w next (Throw (TypeError message), w)
| rejected text props s e :
    manifest w = Contents text ->
    JSON_parse rt text = inl (Obj props) ->
    lookup "version" props = Some (Str s) ->
    next type s = Throw e ->
    outcome rt type w next (Throw e, w)
| rewritten text props s new :
    manifest w = Contents text ->
    JSON_parse rt text = inl (Obj props) ->
    lookup "version" props = Some (Str s) ->
    next type s = Normal new ->
    outcome rt type w next (Normal tt, updated rt props s new w).

(** ** Answers and runtimes for the further properties *)

(** A string of the one-byte white space (TAB, LF, VT, FF, CR, SP) that
    [trim] strips. *)
Fixpoint blank (s : string) : bool :=
  match s with
  | EmptyString => true
  | String c r => is_ws1 c && blank r
  end.

(** A visible ASCII character. *)
Definition visible (c : ascii) : bool := (33 <=? code c) && (code c <=? 126).

(** A word: not empty, with a visible character at either end. *)
Definition word (s : string) : bool :=
  match s, string_rev s with
  | String first _, String last _ => visible first && visible last
  | _, _ => false
  end.

(** A runtime whose parser is a table of texts and the values they stand
    for; it prints and words its errors as the scenario's runtime does. *)
Definition table_runtime (entries : list (string * value)) : runtime := {|
  JSON_parse := fun text =>
    match find (fun entry => String.eqb (fst entry) text) entries with
    | Some entry => inl (snd entry)
    | None => inr "Unexpected token"
    end;
  JSON_stringify := JSON_stringify (scenario_runtime "");
  errno_message := errno_message (scenario_runtime "");
  type_error_message := type_error_message (scenario_runtime "")
|}.

(** A runtime that reads the scenario's manifest at 1.2.3 and, as its own
    printer writes it, at 1.3.0. *)
Definition rerun_runtime : runtime :=
  table_runtime
    [(scenario_text "1.2.3", Obj (scenario_props "1.2.3"));
     (JSON_stringify (scenario_runtime "") (Obj (scenario_props "1.3.0")),
      Obj (scenario_props "1.3.0"))].

(** The byte order mark U+FEFF, in UTF-8. *)
Definition byte_order_mark : string := String "239" (String "187" (String "191" "")).

Definition strip_bom (text : string) : string :=
  match text with
  | String "239" (String "187" (String "191" rest)) => rest
  | _ => text
  end.

(** The reader behind [file.json()] of the Bun script, over a JSON parser:
    the file is decoded without its byte order mark and then parsed.  The
    Node script parses what [fs.readFileSync] gives, the mark included,
    and a text that begins with the mark is no JSON. *)
Definition bun_reader (rt : runtime) : runtime := {|
  JSON_parse := fun text => JSON_parse rt (strip_bom text);
  JSON_stringify := JSON_stringify rt;
  errno_message := errno_message rt;
  type_error_message := type_error_message rt
|}.


(** A string of spaces and tabs, the white space that a typed line can
    have at its ends. *)
Fixpoint spacing (s : string) : bool :=
  match s with
  | EmptyString => true
  | String c r => ((code c =? 32) || (code c =? 9)) && spacing r
  end.

(** A string without line ends, as [rl.question] hands an answer over. *)
Fixpoint one_line (s : string) : bool :=
  match s with
  | EmptyString => true
  | String c r => negb ((code c =? 10) || (code c =? 13)) && one_line r
  end.


(** * Properties *)

(** ** Decimal digits *)

Lemma digit_ind (P : Z -> Prop) :
  (forall z, 0 <= z < 10 -> P z) ->
  (forall z, 10 <= z -> P (z / 10) -> P z) ->
  forall z, 0 <= z -> P z.
Proof.
  intros Hsmall Hstep z Hz.
  induction z as [z IH] using (well_founded_induction (Z.lt_wf 0)).
  destruct (Z_lt_ge_dec z 10) as [Hlt | Hge].
  - apply Hsmall. lia.
  - assert (z / 10 < z) by (apply Z.div_lt; lia).
    assert (0 <= z / 10) by (apply Z.div_pos; lia).
    apply Hstep; [lia |]. apply IH; lia.
Qed.

Lemma decimal_aux_fuel (f1 f2 : nat) (z : Z) :
  0 <= z -> z < 2 ^ Z.of_nat (S f1) -> z < 2 ^ Z.of_nat (S f2) ->
  decimal_aux (S f1) z = decimal_aux (S f2) z.
Proof.
  revert f2 z. induction f1 as [| f1 IH]; intros f2 z Hz H1 H2.
  - change (2 ^ Z.of_nat 1) with 2 in H1. simpl.
    destruct (z <? 10) eqn:E; [reflexivity | apply Z.ltb_ge in E; lia].
  - cbn [decimal_aux]. destruct (z <? 10) eqn:E; [reflexivity |].
    apply Z.ltb_ge in E. f_equal.
    rewrite Nat2Z.inj_succ, Z.pow_succ_r in H1, H2 by lia.
    assert (0 <= z / 10) by (apply Z.div_pos; lia).
    assert (1 <= z / 10) by (apply Z.div_le_lower_bound; lia).
    destruct f2 as [| f2]; [change (2 ^ Z.of_nat 0) with 1 in H2; lia |].
    apply IH; [assumption | |]; apply Z.div_lt_upper_bound; lia.
Qed.

Lemma decimal_fuel (z : Z) : 0 <= z -> z < 2 ^ Z.of_nat (S (Z.to_nat (Z.log2 z))).
Proof.
  intros Hz. rewrite Nat2Z.inj_succ, Z2Nat.id by apply Z.log2_nonneg.
  destruct (Z.eq_dec z 0) as [-> | Hnz]; [reflexivity |].
  apply Z.log2_spec. lia.
Qed.

Lemma decimal_small (z : Z) : 0 <= z < 10 -> decimal z = String (digit_char z) "".
Proof.
  intros Hz. unfold decimal. simpl.
  destruct (z <? 10) eqn:E; [| apply Z.ltb_ge in E; lia].
  rewrite Z.mod_small by lia. reflexivity.
Qed.

Lemma decimal_step (z : Z) :
  10 <= z -> decimal z = decimal (z / 10) ++ String (digit_char (z mod 10)) "".
Proof.
  intros Hz. unfold decimal at 1. simpl.
  destruct (z <? 10) eqn:E; [apply Z.ltb_lt in E; lia |].
  f_equal. unfold decimal.
  assert (0 <= z / 10) by (apply Z.div_pos; lia).
  assert (z / 10 < z) by (apply Z.div_lt; lia).
  pose proof (decimal_fuel z ltac:(lia)) as Hf.
  rewrite Nat2Z.inj_succ, Z.pow_succ_r in Hf by lia.
  assert (1 <= z / 10) by (apply Z.div_le_lower_bound; lia).
  assert (Hq : z / 10 < 2 ^ Z.of_nat (Z.to_nat (Z.log2 z)))
    by (apply Z.div_lt_upper_bound; lia).
  destruct (Z.to_nat (Z.log2 z)) as [| f]; [change (2 ^ Z.of_nat 0) with 1 in Hq; lia |].
  apply decimal_aux_fuel; [assumption | assumption | apply decimal_fuel; assumption].
Qed.

Lemma is_digit_digit_char (d : Z) : 0 <= d < 10 -> is_digit (digit_char d) = true.
Proof.
  intros Hd.
  assert (H : In d [0; 1; 2; 3; 4; 5; 6; 7; 8; 9]) by (simpl; lia).
  simpl in H. decompose [or] H; subst; try reflexivity. contradiction.
Qed.

Lemma digit_value_digit_char (d : Z) : 0 <= d < 10 -> digit_value (digit_char d) = d.
Proof.
  intros Hd.
  assert (H : In d [0; 1; 2; 3; 4; 5; 6; 7; 8; 9]) by (simpl; lia).
  simpl in H. decompose [or] H; subst; try reflexivity. contradiction.
Qed.

Lemma all_digits_app (s t : string) :
  all_digits (s ++ t) = all_digits s && all_digits t.
Proof.
  induction s as [| c s IH]; simpl; [reflexivity |].
  rewrite IH. apply andb_assoc.
Qed.

Lemma all_digits_decimal (z : Z) : 0 <= z -> all_digits (decimal z) = true.
Proof.
  intros Hz. pattern z. apply digit_ind; [| | assumption]; clear z Hz.
  - intros z Hz. rewrite decimal_small by assumption. simpl.
    rewrite is_digit_digit_char by assumption. reflexivity.
  - intros z Hz IH. rewrite decimal_step by assumption.
    rewrite all_digits_app, IH. simpl.
    rewrite is_digit_digit_char; [reflexivity |]. apply Z.mod_pos_bound. lia.
Qed.

Lemma digits_value_from_app (radix acc : Z) (digit : ascii -> Z) (s t : string) :
  digits_value_from radix acc digit (s ++ t)
  = digits_value_from radix (digits_value_from radix acc digit s) digit t.
Proof.
  revert acc. induction s as [| c s IH]; intros acc; simpl; [reflexivity |].
  apply IH.
Qed.

Lemma digits_value_decimal (z : Z) : 0 <= z -> digits_value (decimal z) = z.
Proof.
  intros Hz. pattern z. apply digit_ind; [| | assumption]; clear z Hz.
  - intros z Hz. rewrite decimal_small by assumption. unfold digits_value.
    cbn [digits_value_from].
    rewrite digit_value_digit_char by assumption. lia.
  - intros z Hz IH. rewrite decimal_step by assumption.
    unfold digits_value in *. rewrite digits_value_from_app, IH.
    cbn [digits_value_from].
    rewrite digit_value_digit_char by (apply Z.mod_pos_bound; lia).
    pose proof (Z.div_mod z 10 ltac:(lia)). lia.
Qed.

Lemma decimal_inj (a b : Z) : 0 <= a -> 0 <= b -> decimal a = decimal b -> a = b.
Proof.
  intros Ha Hb H.
  rewrite <- (digits_value_decimal a), <- (digits_value_decimal b) by assumption.
  now rewrite H.
Qed.

Lemma decimal_nonempty (z : Z) : 0 <= z -> exists c r, decimal z = String c r.
Proof.
  intros Hz. destruct (Z_lt_ge_dec z 10).
  - rewrite decimal_small by lia. eauto.
  - rewrite decimal_step by lia.
    destruct (decimal (z / 10)); simpl; eauto.
Qed.
(** ** Parsing a digit string *)

Lemma is_digit_code (c : ascii) : is_digit c = true -> 48 <= code c <= 57.
Proof.
  unfold is_digit. intros H. apply andb_true_iff in H. destruct H as [H1 H2].
  apply Z.leb_le in H1, H2. lia.
Qed.

Lemma digit_cases (c : ascii) :
  is_digit c = true ->
  In c ["0"; "1"; "2"; "3"; "4"; "5"; "6"; "7"; "8"; "9"]%char.
Proof.
  destruct c as [[] [] [] [] [] [] [] []]; intros H; try discriminate H;
    simpl; tauto.
Qed.

Ltac digit_cases c H :=
  let Hin := fresh in
  pose proof (digit_cases c H) as Hin; simpl in Hin;
  decompose [or] Hin; clear Hin; subst; try contradiction.

Ltac decide_codes :=
  repeat match goal with
    | |- context [?a =? ?b] => destruct (Z.eqb_spec a b); try lia
    | |- context [?a <=? ?b] => destruct (Z.leb_spec a b); try lia
    end;
  try reflexivity.

Lemma drop_ws_digit (backwards : bool) (c : ascii) (r : string) :
  is_digit c = true -> drop_ws backwards (String c r) = String c r.
Proof.
  intros H. apply is_digit_code in H. cbn [drop_ws].
  assert (H1 : is_ws1 c = false) by (unfold is_ws1; decide_codes).
  rewrite H1. destruct r as [| c2 r2]; [reflexivity |].
  assert (H2 : (if backwards then is_ws2 c2 c else is_ws2 c c2) = false)
    by (destruct backwards; unfold is_ws2; decide_codes).
  rewrite H2. destruct r2 as [| c3 r3]; [reflexivity |].
  assert (H3 : (if backwards then is_ws3 c3 c2 c else is_ws3 c c2 c3) = false)
    by (destruct backwards; unfold is_ws3; cbv zeta; decide_codes).
  rewrite H3. reflexivity.
Qed.

Lemma all_digits_forallb (s : string) :
  all_digits s = forallb is_digit (list_ascii_of_string s).
Proof. induction s as [| c s IH]; simpl; [reflexivity | now rewrite IH]. Qed.

Lemma string_rev_involutive (s : string) : string_rev (string_rev s) = s.
Proof.
  unfold string_rev.
  rewrite list_ascii_of_string_of_list_ascii, rev_involutive.
  apply string_of_list_ascii_of_string.
Qed.

Lemma all_digits_rev (s : string) : all_digits (string_rev s) = all_digits s.
Proof.
  unfold string_rev. rewrite !all_digits_forallb, list_ascii_of_string_of_list_ascii.
  induction (list_ascii_of_string s) as [| c l IH]; [reflexivity |].
  simpl. rewrite forallb_app, IH. simpl. rewrite andb_true_r. apply andb_comm.
Qed.

Lemma string_rev_nonempty (c : ascii) (r : string) :
  exists c' r', string_rev (String c r) = String c' r'.
Proof.
  unfold string_rev. simpl.
  destruct (rev (list_ascii_of_string r)) as [| c' l]; simpl; eauto.
Qed.

Lemma trim_digits (s : string) : all_digits s = true -> trim s = s.
Proof.
  intros H. unfold trim. destruct s as [| c r]; [reflexivity |].
  rewrite drop_ws_digit by (simpl in H; apply andb_true_iff in H; tauto).
  destruct (string_rev_nonempty c r) as (c' & r' & E).
  assert (H' : all_digits (String c' r') = true) by (rewrite <- E, all_digits_rev; exact H).
  rewrite E, drop_ws_digit by (simpl in H'; apply andb_true_iff in H'; tauto).
  rewrite <- E. apply string_rev_involutive.
Qed.

Lemma digits_prefix_all (s : string) : all_digits s = true -> digits_prefix s = (s, "").
Proof.
  induction s as [| c s IH]; simpl; [reflexivity |].
  intros H. apply andb_true_iff in H. destruct H as [Hc Hs].
  rewrite Hc, IH by assumption. reflexivity.
Qed.

Lemma string_app_empty (s : string) : s ++ "" = s.
Proof. induction s as [| c s IH]; simpl; [reflexivity | now rewrite IH]. Qed.

(** [Number] reads a string of digits as the Number nearest to its value. *)
Lemma Number_digits (c : ascii) (r : string) :
  all_digits (String c r) = true ->
  Number (String c r) = of_decimal false (digits_value (String c r)) 0.
Proof.
  intros H. unfold Number. rewrite trim_digits by assumption.
  pose proof H as H0. simpl in H0. apply andb_true_iff in H0. destruct H0 as [Hc Hr].
  assert (Hnd : non_decimal_literal (String c r) = None).
  { destruct r as [| p [| c' r']]; [digit_cases c Hc; reflexivity .. |].
    simpl in Hr. apply andb_true_iff in Hr. destruct Hr as [Hp _].
    digit_cases c Hc; try reflexivity. digit_cases p Hp; reflexivity. }
  rewrite Hnd. unfold decimal_literal.
  assert (Hsign : match String c r with
                  | String "+" t => (false, t)
                  | String "-" t => (true, t)
                  | _ => (false, String c r)
                  end = (false, String c r))
    by (digit_cases c Hc; reflexivity).
  rewrite Hsign.
  assert (Hinf : String.eqb (String c r) "Infinity" = false)
    by (digit_cases c Hc; reflexivity).
  rewrite Hinf. unfold unsigned_decimal_literal.
  rewrite digits_prefix_all by assumption. simpl digits_prefix.
  rewrite string_app_empty. simpl. f_equal.
Qed.

(** ** Rounding integers *)

Lemma round_half_even_exact (m d : Z) : 0 < d -> round_half_even (m * d) d = m.
Proof.
  intros Hd. unfold round_half_even.
  rewrite Z.div_mul, Z.mod_mul by lia.
  destruct (2 * 0 <? d) eqn:E; [reflexivity | apply Z.ltb_ge in E; lia].
Qed.

Lemma round_half_even_int (z : Z) : round_half_even z 1 = z.
Proof. rewrite <- (Z.mul_1_r z) at 1. apply round_half_even_exact. lia. Qed.

Lemma floor_log2_int (a : Z) : 0 < a -> floor_log2 a 1 = Z.log2 a.
Proof.
  intros Ha. unfold floor_log2. change (Z.log2 1) with 0. rewrite Z.sub_0_r.
  pose proof (Z.log2_nonneg a) as Hl.
  pose proof (Z.log2_spec a Ha) as Hs.
  destruct (0 <=? Z.log2 a) eqn:E; [| apply Z.leb_gt in E; lia].
  destruct (a <? 1 * 2 ^ Z.log2 a) eqn:E'; [apply Z.ltb_lt in E'; lia | reflexivity].
Qed.

Lemma scale2_exact (a j : Z) : 0 < a -> 0 < j -> scale2 (a * 2 ^ j) (- j) = Fin a 0.
Proof.
  intros Ha Hj. unfold scale2.
  destruct (0 <=? - j) eqn:E; [apply Z.leb_le in E; lia |].
  rewrite Z.opp_involutive.
  assert (Hp : 0 < 2 ^ j) by (apply Z.pow_pos_nonneg; lia).
  assert (Hg : Z.gcd (a * 2 ^ j) (2 ^ j) = 2 ^ j).
  { rewrite Z.gcd_comm, Z.mul_comm. apply Z.gcd_mul_diag_l. lia. }
  rewrite Hg, Z.div_mul, Z.log2_pow2 by lia.
  rewrite Z.sub_diag. reflexivity.
Qed.

(** An integer of at most 53 bits is a Number. *)
Lemma round64_exact (z : Z) : 0 <= z <= 2 ^ 53 -> round64 z 1 = Fin z 0.
Proof.
  intros Hz.
  destruct (Z.eq_dec z 0) as [-> | Hnz]; [reflexivity |].
  destruct (Z.eq_dec z (2 ^ 53)) as [-> | Hmax]; [vm_compute; reflexivity |].
  assert (Hpos : 0 < z) by lia.
  assert (Hlog : Z.log2 z < 53) by (apply Z.log2_lt_pow2; lia).
  pose proof (Z.log2_nonneg z) as Hl.
  unfold round64.
  destruct (Z.eqb_spec z 0) as [| _]; [lia |].
  destruct (Z.ltb_spec z 0) as [| _]; [lia |].
  rewrite Z.abs_eq, floor_log2_int by lia.
  rewrite Z.max_l by lia.
  destruct (Z.eq_dec (Z.log2 z) 52) as [E | NE].
  - rewrite E. change (52 - 52) with 0. cbn [Z.leb Z.compare].
    change (1 * 2 ^ 0) with 1. rewrite round_half_even_int.
    destruct (Z.eqb_spec z 0); [lia |].
    unfold scale2. cbn. f_equal. lia.
  - set (j := 52 - Z.log2 z). assert (Hj : 0 < j) by lia.
    replace (Z.log2 z - 52) with (- j) by lia.
    destruct (Z.leb_spec 0 (- j)); [lia |].
    rewrite Z.opp_involutive.
    rewrite round_half_even_int.
    assert (Hp : 0 < 2 ^ j) by (apply Z.pow_pos_nonneg; lia).
    destruct (Z.eqb_spec (z * 2 ^ j) 0); [nia |].
    destruct (Z.leb_spec 972 (- j)); [lia |].
    destruct (Z.eqb_spec (- j) 971); [lia |].
    simpl. apply scale2_exact; assumption.
Qed.

(** Between [2^53] and [2^54] the Numbers are the even integers. *)
Lemma round64_even (c : Z) :
  2 ^ 53 < c < 2 ^ 54 -> round64 c 1 = Fin (2 * round_half_even c 2) 0.
Proof.
  intros Hc.
  assert (Hlog : Z.log2 c = 53).
  { apply Z.log2_unique; [lia |]. change (2 ^ (53 + 1)) with (2 ^ 54). lia. }
  unfold round64.
  destruct (Z.eqb_spec c 0) as [| _]; [lia |].
  destruct (Z.ltb_spec c 0) as [| _]; [lia |].
  rewrite Z.abs_eq, floor_log2_int by lia.
  rewrite Hlog. change (Z.max 53 (-1022) - 52) with 1.
  cbn [Z.leb Z.compare]. change (1 * 2 ^ 1) with 2.
  assert (Hq : 2 ^ 52 <= round_half_even c 2 <= 2 ^ 53).
  { unfold round_half_even.
    pose proof (Z.div_mod c 2 ltac:(lia)). pose proof (Z.mod_pos_bound c 2 ltac:(lia)).
    destruct (2 * (c mod 2) <? 2); [lia |].
    destruct (2 <? 2 * (c mod 2)); [lia |].
    destruct (Z.even (c / 2)); lia. }
  destruct (Z.eqb_spec (round_half_even c 2) 0); [lia |].
  change (972 <=? 1) with false. change (1 =? 971) with false.
  cbn [orb andb]. unfold scale2. cbn [Z.leb Z.compare]. f_equal. lia.
Qed.

Lemma add1_int (z : Z) : add1 (Fin z 0) = round64 (z + 1) 1.
Proof. reflexivity. Qed.

(** On the safe integers [++] adds one. *)
Lemma add1_safe (z : Z) : 0 <= z <= MAX_SAFE_INTEGER -> add1 (Fin z 0) = Fin (z + 1) 0.
Proof.
  unfold MAX_SAFE_INTEGER. intros Hz. rewrite add1_int. apply round64_exact. lia.
Qed.

Lemma Number_decimal (z : Z) : 0 <= z <= 2 ^ 53 -> Number (decimal z) = Fin z 0.
Proof.
  intros Hz. destruct (decimal_nonempty z) as (c & r & E); [lia |].
  pose proof (all_digits_decimal z ltac:(lia)) as Hd.
  rewrite E in *. rewrite Number_digits by assumption.
  rewrite <- E, digits_value_decimal by lia.
  unfold of_decimal. destruct (Z.eqb_spec z 0) as [-> | ?]; [reflexivity |].
  change (0 <=? 0) with true. cbv iota. change (10 ^ 0) with 1.
  rewrite Z.mul_1_r. apply round64_exact. assumption.
Qed.

(** ** Printing a safe integer *)

Lemma string_length_app (s t : string) :
  String.length (s ++ t) = (String.length s + String.length t)%nat.
Proof. induction s as [| c s IH]; simpl; [reflexivity | now rewrite IH]. Qed.

(** A positive integer with [l] digits lies in [10^(l-1), 10^l). *)
Lemma decimal_length (z : Z) :
  1 <= z ->
  let l := digit_count z in
  1 <= l /\ 10 ^ (l - 1) <= z < 10 ^ l.
Proof.
  unfold digit_count. intros Hz. assert (H0 : 0 <= z) by lia. revert Hz. pattern z.
  apply digit_ind; [| | assumption]; clear z H0.
  - intros z Hz H1. rewrite decimal_small by assumption. simpl. lia.
  - intros z Hz IH _.
    assert (H1 : 1 <= z / 10) by (apply Z.div_le_lower_bound; lia).
    specialize (IH H1). cbv zeta in IH. destruct IH as (Hl & Hlo & Hhi).
    rewrite decimal_step by assumption. rewrite string_length_app.
    cbn [String.length]. rewrite Nat2Z.inj_add. cbv zeta.
    set (l := Z.of_nat (String.length (decimal (z / 10)))) in *.
    change (Z.of_nat 1) with 1.
    replace (l + 1 - 1) with (Z.succ (l - 1)) by lia.
    replace (l + 1) with (Z.succ l) at 2 by lia.
    rewrite !Z.pow_succ_r by lia.
    pose proof (Z.div_mod z 10 ltac:(lia)). pose proof (Z.mod_pos_bound z 10 ltac:(lia)).
    lia.
Qed.

Lemma zeros_snoc (p : nat) : zeros p ++ "0" = zeros (S p).
Proof. induction p as [| p IH]; simpl; [reflexivity | now rewrite IH]. Qed.

Lemma string_app_assoc (s t u : string) : (s ++ t) ++ u = s ++ t ++ u.
Proof. induction s as [| c s IH]; simpl; [reflexivity | now rewrite IH]. Qed.

Lemma decimal_shift (m : Z) (p : nat) :
  1 <= m -> decimal (m * 10 ^ Z.of_nat p) = decimal m ++ zeros p.
Proof.
  intros Hm. induction p as [| p IH].
  - simpl. rewrite Z.mul_1_r, string_app_empty. reflexivity.
  - rewrite Nat2Z.inj_succ, Z.pow_succ_r by lia.
    assert (Hp : 0 < 10 ^ Z.of_nat p) by (apply Z.pow_pos_nonneg; lia).
    replace (m * (10 * 10 ^ Z.of_nat p)) with (m * 10 ^ Z.of_nat p * 10) by lia.
    rewrite decimal_step by nia.
    rewrite Z.div_mul, Z.mod_mul, IH by lia.
    rewrite string_app_assoc. f_equal. apply zeros_snoc.
Qed.

Lemma Fin_inj (a b : Z) (d e : N) : Fin a d = Fin b e -> a = b.
Proof. congruence. Qed.

Section SafeInteger.
Variable z : Z.
Hypothesis z_safe : 1 <= z <= 2 ^ 53.

Lemma safe_length : 1 <= digit_count z <= 16.
Proof.
  pose proof (decimal_length z ltac:(lia)) as H. cbv zeta in H.
  set (l := digit_count z) in *.
  destruct H as (H1 & Hlo & _). split; [assumption |].
  destruct (Z_le_gt_dec l 16) as [| Hgt]; [assumption | exfalso].
  assert (10 ^ 16 <= 10 ^ (l - 1)) by (apply Z.pow_le_mono_r; lia).
  change (2 ^ 53) with 9007199254740992 in z_safe.
  change (10 ^ 16) with 10000000000000000 in *. lia.
Qed.

Lemma reads_back_below (s p : Z) :
  0 <= p -> 0 <= s -> s * 10 ^ p <= z ->
  reads_back (Fin z 0) s p = true -> s * 10 ^ p = z.
Proof.
  intros Hp Hs Hle. unfold reads_back.
  destruct (Z.leb_spec 0 p); [| lia].
  assert (0 <= s * 10 ^ p) by (apply Z.mul_nonneg_nonneg; [lia | apply Z.pow_nonneg; lia]).
  rewrite round64_exact by lia.
  destruct (number_eq_dec _ _) as [E | ]; [| discriminate]. intros _. congruence.
Qed.

Lemma reads_back_exact : reads_back (Fin z 0) z 0 = true.
Proof.
  unfold reads_back. cbn [Z.leb Z.compare]. change (10 ^ 0) with 1.
  rewrite Z.mul_1_r, round64_exact by lia.
  destruct (number_eq_dec _ _); [reflexivity | congruence].
Qed.

Lemma reads_back_above (s p : Z) :
  1 <= p <= 15 -> z < s * 10 ^ p <= z + 10 ^ p ->
  reads_back (Fin z 0) s p = false.
Proof.
  intros Hp Hs. unfold reads_back.
  destruct (Z.leb_spec 0 p); [| lia].
  set (c := s * 10 ^ p) in *.
  assert (H10 : 10 ^ p <= 10 ^ 15) by (apply Z.pow_le_mono_r; lia).
  assert (Heven : c mod 2 = 0).
  { unfold c. replace p with (Z.succ (p - 1)) by lia. rewrite Z.pow_succ_r by lia.
    replace (s * (10 * 10 ^ (p - 1))) with (s * 5 * 10 ^ (p - 1) * 2) by lia.
    apply Z.mod_mul. lia. }
  change (10 ^ 15) with 1000000000000000 in H10.
  change (2 ^ 53) with 9007199254740992 in z_safe.
  destruct (number_eq_dec _ _) as [E | ]; [exfalso | reflexivity].
  destruct (Z_le_gt_dec c (2 ^ 53)) as [Hc | Hc].
  - rewrite round64_exact in E by lia. apply Fin_inj in E. lia.
  - change (2 ^ 53) with 9007199254740992 in Hc.
    rewrite round64_even in E
      by (change (2 ^ 53) with 9007199254740992;
          change (2 ^ 54) with 18014398509481984; lia).
    assert (Hr : round_half_even c 2 = c / 2)
      by (unfold round_half_even; rewrite Heven; reflexivity).
    rewrite Hr in E. apply Fin_inj in E.
    pose proof (Z.div_mod c 2 ltac:(lia)). lia.
Qed.

Lemma digit_candidates_safe (k : Z) :
  1 <= k <= digit_count z ->
  match digit_candidates (Fin z 0) z 1 (digit_count z) k with
  | s :: _ => 1 <= s /\ s * 10 ^ (digit_count z - k) = z
  | [] => k < digit_count z
  end.
Proof.
  intros Hk. pose proof safe_length as Hl.
  pose proof (decimal_length z ltac:(lia)) as Hlen. cbv zeta in Hlen.
  set (l := digit_count z) in *.
  destruct Hlen as (_ & Hlo & Hhi).
  unfold digit_candidates. cbv zeta.
  set (p := l - k). assert (Hp : 0 <= p <= 15) by lia.
  destruct (Z.leb_spec 0 p); [| lia].
  rewrite Z.mul_1_l.
  assert (Hpow : 0 < 10 ^ p) by (apply Z.pow_pos_nonneg; lia).
  pose proof (Z.div_mod z (10 ^ p) ltac:(lia)) as Hdm.
  pose proof (Z.mod_pos_bound z (10 ^ p) ltac:(lia)) as Hmod.
  set (lo := z / 10 ^ p) in *. set (r := z mod 10 ^ p) in *.
  assert (Hlo0 : 0 <= lo) by (apply Z.div_pos; lia).
  destruct (Z.eq_dec p 0) as [Hp0 | Hp0].
  - assert (Hlz : lo = z) by (unfold lo; rewrite Hp0; apply Z.div_1_r).
    assert (Hr : r = 0) by (unfold r; rewrite Hp0; apply Z.mod_1_r).
    rewrite Hr, Hlz, Hp0. change (10 ^ 0) with 1.
    cbn [Z.mul Z.ltb Z.compare orb filter].
    replace k with l by lia. rewrite reads_back_exact.
    destruct (Z.leb_spec (10 ^ (l - 1)) z); [| lia].
    destruct (Z.leb_spec z (10 ^ l)); [| lia].
    cbn [andb]. lia.
  - assert (Hhi' : reads_back (Fin z 0) (lo + 1) p = false)
      by (apply reads_back_above; nia).
    assert (Hlo' : reads_back (Fin z 0) lo p = true -> lo * 10 ^ p = z)
      by (apply reads_back_below; nia).
    assert (Hone : reads_back (Fin z 0) lo p = true -> 1 <= lo) by (intros H'; specialize (Hlo' H'); nia).
    destruct ((2 * r <? 10 ^ p) || (2 * r =? 10 ^ p) && Z.even lo);
      cbn [filter]; rewrite Hhi', !andb_false_r;
      destruct (reads_back (Fin z 0) lo p); rewrite ?andb_true_r, ?andb_false_r;
      try lia;
      destruct ((10 ^ (k - 1) <=? lo) && (lo <=? 10 ^ k)); try lia; auto.
Qed.

Lemma shortest_digits_safe (fuel : nat) (k : Z) :
  1 <= k <= digit_count z -> digit_count z - k < Z.of_nat fuel ->
  let (k', s) := shortest_digits fuel (Fin z 0) z 1 (digit_count z) k in
  1 <= k' <= digit_count z /\ 1 <= s /\ s * 10 ^ (digit_count z - k') = z.
Proof.
  revert k. induction fuel as [| fuel IH]; intros k Hk Hfuel; [simpl in Hfuel; lia |].
  cbn [shortest_digits]. pose proof (digit_candidates_safe k Hk) as Hc.
  destruct (digit_candidates (Fin z 0) z 1 (digit_count z) k) as [| s rest].
  - specialize (IH (k + 1) ltac:(lia) ltac:(lia)).
    destruct (shortest_digits fuel (Fin z 0) z 1 (digit_count z) (k + 1)) as [k' s']. lia.
  - lia.
Qed.

Lemma positive_toString_safe : positive_toString (Fin z 0) z 1 = decimal z.
Proof.
  pose proof safe_length as Hl.
  pose proof (decimal_length z ltac:(lia)) as Hlen. cbv zeta in Hlen.
  pose proof (shortest_digits_safe 17 1) as Hs.
  set (l := digit_count z) in *.
  destruct Hlen as (_ & Hlo & Hhi).
  unfold positive_toString.
  assert (Hn : decimal_exponent z 1 = l).
  { unfold decimal_exponent. destruct (Z.leb_spec 1 z); [| lia].
    rewrite Z.div_1_r. reflexivity. }
  rewrite Hn.
  specialize (Hs ltac:(lia) ltac:(simpl; lia)).
  destruct (shortest_digits 17 (Fin z 0) z 1 l 1) as [k s].
  destruct Hs as (Hk & Hs1 & Hs).
  assert (Hsplit : 10 ^ l = 10 ^ k * 10 ^ (l - k))
    by (rewrite <- Z.pow_add_r by lia; f_equal; lia).
  assert (Hpow : 0 < 10 ^ (l - k)) by (apply Z.pow_pos_nonneg; lia).
  destruct (Z.eqb_spec s (10 ^ k)); [nia |].
  destruct (Z.leb_spec k l); [| lia].
  destruct (Z.leb_spec l 21); [| lia].
  cbn [andb]. rewrite <- decimal_shift by assumption.
  f_equal. rewrite Z2Nat.id by lia. exact Hs.
Qed.

End SafeInteger.

(** A template literal shows an integer up to [2^53] by its digits. *)
Lemma Number_toString_safe (z : Z) :
  0 <= z <= 2 ^ 53 -> Number_toString (Fin z 0) = decimal z.
Proof.
  intros Hz. unfold Number_toString.
  destruct (Z.eqb_spec z 0) as [-> | Hnz]; [reflexivity |].
  destruct (Z.ltb_spec z 0); [lia |].
  rewrite Z.abs_eq by lia. change (2 ^ Z.of_N 0) with 1.
  rewrite positive_toString_safe by lia. reflexivity.
Qed.

(** ** Splitting a version string *)

Lemma digit_not_dot (c : ascii) : is_digit c = true -> Ascii.eqb c "." = false.
Proof. intros H. digit_cases c H; reflexivity. Qed.

Lemma split_digits (a : string) : all_digits a = true -> split "." a = [a].
Proof.
  induction a as [| c a IH]; [reflexivity |].
  simpl. intros H. apply andb_true_iff in H. destruct H as [Hc Ha].
  rewrite (digit_not_dot c Hc), IH by assumption. reflexivity.
Qed.

Lemma split_digits_dot (a rest : string) :
  all_digits a = true -> split "." (a ++ String "." rest) = a :: split "." rest.
Proof.
  induction a as [| c a IH]; [reflexivity |].
  simpl. intros H. apply andb_true_iff in H. destruct H as [Hc Ha].
  rewrite (digit_not_dot c Hc), IH by assumption. reflexivity.
Qed.

Lemma split_version (v : Z * Z * Z) :
  valid v ->
  let '(major, minor, patch) := v in
  split "." (version v) = [decimal major; decimal minor; decimal patch].
Proof.
  destruct v as [[major minor] patch]. intros (H1 & H2 & H3). unfold version.
  change (decimal major ++ "." ++ decimal minor ++ "." ++ decimal patch)
    with (decimal major ++ String "." (decimal minor ++ String "." (decimal patch))).
  rewrite !split_digits_dot, split_digits by (apply all_digits_decimal; assumption).
  reflexivity.
Qed.

Lemma version_inj (v v' : Z * Z * Z) :
  valid v -> valid v' -> version v = version v' -> v = v'.
Proof.
  intros Hv Hv' E. apply (f_equal (split ".")) in E.
  pose proof (split_version v Hv) as S1. pose proof (split_version v' Hv') as S2.
  destruct v as [[a b] c], v' as [[a' b'] c'].
  rewrite S1, S2 in E. injection E as Ea Eb Ec.
  destruct Hv as (? & ? & ?), Hv' as (? & ? & ?).
  apply decimal_inj in Ea, Eb, Ec; try assumption. congruence.
Qed.

Lemma safe_valid (v : Z * Z * Z) : safe v -> valid v.
Proof. destruct v as [[a b] c]. unfold safe, valid. lia. Qed.

(** The variables that the scripts bind on a well-formed version. *)
Lemma destructure_version (v : Z * Z * Z) :
  safe v ->
  let '(major, minor, patch) := v in
  destructure (split "." (version v))
  = (Num (of_int major), Num (of_int minor), Num (of_int patch)).
Proof.
  intros Hs. pose proof (split_version v (safe_valid v Hs)) as S.
  destruct v as [[a b] c]. rewrite S. unfold destructure, of_int.
  cbn [map nth]. destruct Hs as (Ha & Hb & Hc). unfold MAX_SAFE_INTEGER in *.
  rewrite !Number_decimal by lia. reflexivity.
Qed.

Lemma template_integers (a b c : Z) :
  0 <= a <= 2 ^ 53 -> 0 <= b <= 2 ^ 53 -> 0 <= c <= 2 ^ 53 ->
  template (Num (of_int a), Num (of_int b), Num (of_int c)) = version (a, b, c).
Proof.
  intros Ha Hb Hc. unfold template, version, of_int. cbn [ToString].
  rewrite !Number_toString_safe by assumption. reflexivity.
Qed.

Lemma increment_safe (z : Z) :
  0 <= z <= MAX_SAFE_INTEGER -> increment (Num (of_int z)) = Num (of_int (z + 1)).
Proof. intros Hz. unfold increment, of_int. cbn [ToNumber]. now rewrite add1_safe. Qed.

(** ** The switch statements *)

Lemma Node_bump_kind (type : string) (k : kind) (v : value * value * value) :
  Node.kind_of type = Some k -> Node.bump type v = Normal (bumped k v).
Proof.
  destruct v as [[major minor] patch]. unfold Node.kind_of, Node.bump, bumped.
  destruct (String.eqb type "patch"); [intros [= <-]; reflexivity |].
  destruct (String.eqb type "minor"); [intros [= <-]; reflexivity |].
  destruct (String.eqb type "major"); [intros [= <-]; reflexivity |].
  discriminate.
Qed.

Lemma Node_bump_unknown (type : string) (v : value * value * value) :
  Node.kind_of type = None -> Node.bump type v = Throw (Error invalid_type_message).
Proof.
  destruct v as [[major minor] patch]. unfold Node.kind_of, Node.bump.
  destruct (String.eqb type "patch"); [discriminate |].
  destruct (String.eqb type "minor"); [discriminate |].
  destruct (String.eqb type "major"); [discriminate |].
  reflexivity.
Qed.

Lemma Bun_bump_kind (type : string) (k : kind) (v : value * value * value) :
  Bun.alias_of type = Some k -> Bun.bump type v = Normal (bumped k v).
Proof.
  destruct v as [[major minor] patch]. unfold Bun.alias_of, Bun.bump, bumped.
  destruct (String.eqb type "p" || String.eqb type "patch")%bool; [intros [= <-]; reflexivity |].
  destruct (String.eqb type "min" || String.eqb type "minor")%bool; [intros [= <-]; reflexivity |].
  destruct (String.eqb type "max" || String.eqb type "major")%bool; [intros [= <-]; reflexivity |].
  discriminate.
Qed.

Lemma Bun_bump_unknown (type : string) (v : value * value * value) :
  Bun.alias_of type = None -> Bun.bump type v = Throw (Error invalid_type_message).
Proof.
  destruct v as [[major minor] patch]. unfold Bun.alias_of, Bun.bump.
  destruct (String.eqb type "p" || String.eqb type "patch")%bool; [discriminate |].
  destruct (String.eqb type "min" || String.eqb type "minor")%bool; [discriminate |].
  destruct (String.eqb type "max" || String.eqb type "major")%bool; [discriminate |].
  reflexivity.
Qed.

(** What the switch computes on the variables of a well-formed version is
    the increment rule on the triple. *)
Lemma bumped_safe (k : kind) (v : Z * Z * Z) :
  safe v ->
  let '(major, minor, patch) := v in
  template (bumped k (Num (of_int major), Num (of_int minor), Num (of_int patch)))
  = version (spec_increment k v).
Proof.
  destruct v as [[a b] c]. intros (Ha & Hb & Hc).
  pose proof Ha as Ha'. pose proof Hb as Hb'. pose proof Hc as Hc'.
  unfold MAX_SAFE_INTEGER in Ha', Hb', Hc'.
  unfold bumped, spec_increment, zero.
  destruct k; rewrite increment_safe by assumption;
    apply template_integers; lia.
Qed.

(** ** The version transformation *)

Lemma Node_next_version_kind (type : string) (k : kind) (s : string) :
  Node.kind_of type = Some k ->
  Node.next_version type s = Normal (template (bumped k (destructure (split "." s)))).
Proof. intros H. unfold Node.next_version. now rewrite (Node_bump_kind type k). Qed.

Lemma Bun_next_version_kind (type : string) (k : kind) (s : string) :
  Bun.alias_of type = Some k ->
  Bun.next_version type s = Normal (template (bumped k (destructure (split "." s)))).
Proof. intros H. unfold Bun.next_version. now rewrite (Bun_bump_kind type k). Qed.

Lemma Node_next_version_unknown (type s : string) :
  Node.kind_of type = None ->
  Node.next_version type s = Throw (Error invalid_type_message).
Proof. intros H. unfold Node.next_version. now rewrite Node_bump_unknown. Qed.

Lemma Bun_next_version_unknown (type s : string) :
  Bun.alias_of type = None ->
  Bun.next_version type s = Throw (Error invalid_type_message).
Proof. intros H. unfold Bun.next_version. now rewrite Bun_bump_unknown. Qed.

Lemma next_version_safe (k : kind) (v : Z * Z * Z) :
  safe v ->
  template (bumped k (destructure (split "." (version v)))) = version (spec_increment k v).
Proof.
  intros Hs. pose proof (destructure_version v Hs) as D.
  pose proof (bumped_safe k v Hs) as B.
  destruct v as [[a b] c]. rewrite D. exact B.
Qed.

Lemma Node_next_version_rule (v : Z * Z * Z) (type : string) (k : kind) :
  safe v -> Node.kind_of type = Some k ->
  Node.next_version type (version v) = Normal (version (spec_increment k v)).
Proof.
  intros Hs Hk. rewrite (Node_next_version_kind type k) by assumption.
  f_equal. apply next_version_safe. assumption.
Qed.

Lemma Bun_next_version_rule (v : Z * Z * Z) (type : string) (k : kind) :
  safe v -> Bun.alias_of type = Some k ->
  Bun.next_version type (version v) = Normal (version (spec_increment k v)).
Proof.
  intros Hs Hk. rewrite (Bun_next_version_kind type k) by assumption.
  f_equal. apply next_version_safe. assumption.
Qed.

(** C1 (as amended): for every version triple of integers from 0 to
    Number.MAX_SAFE_INTEGER and every increment kind that a script
    recognizes, the version transformation of [updateVersion] follows the
    increment rule: the incremented component increases by exactly one,
    every component below it resets to zero and every component above it is
    unchanged. *)
Theorem increment_rule (v : Z * Z * Z) (type : string) (k : kind) :
  safe v ->
  (Node.kind_of type = Some k ->
   Node.next_version type (version v) = Normal (version (spec_increment k v)))
  /\ (Bun.alias_of type = Some k ->
      Bun.next_version type (version v) = Normal (version (spec_increment k v))).
Proof.
  intros Hs. split; intros Hk.
  - apply Node_next_version_rule; assumption.
  - apply Bun_next_version_rule; assumption.
Qed.

Lemma increment_rule_witness :
  Node.next_version "minor" (version (1, 2, 3)) = Normal (version (1, 3, 0))
  /\ Bun.next_version "min" (version (1, 2, 3)) = Normal (version (1, 3, 0)).
Proof.
  assert (Hs : safe (1, 2, 3)) by (unfold safe, MAX_SAFE_INTEGER; lia).
  destruct (increment_rule (1, 2, 3) "minor" Minor Hs) as [HN _].
  destruct (increment_rule (1, 2, 3) "min" Minor Hs) as [_ HB].
  split; [apply HN | apply HB]; reflexivity.
Defined.

(** At the version [0.0.9007199254740992], a triple of non-negative
    integers, [patch] leaves the patch component as it is: [2^53 + 1] is
    not a Number and the sum rounds back to [2^53]. *)
Lemma increment_rule_beyond_safe_integers :
  valid (0, 0, 2 ^ 53)
  /\ Node.kind_of "patch" = Some Patch
  /\ Node.next_version "patch" (version (0, 0, 2 ^ 53))
     <> Normal (version (spec_increment Patch (0, 0, 2 ^ 53))).
Proof.
  split; [unfold valid; lia |]. split; [reflexivity |].
  vm_compute. discriminate.
Qed.

Lemma spec_increment_precedes (k : kind) (v : Z * Z * Z) : precedes v (spec_increment k v).
Proof. destruct v as [[a b] c]. destruct k; unfold precedes, spec_increment; lia. Qed.

Lemma spec_increment_valid (k : kind) (v : Z * Z * Z) : valid v -> valid (spec_increment k v).
Proof. destruct v as [[a b] c]. destruct k; unfold valid, spec_increment; lia. Qed.

Lemma precedes_irrefl (v : Z * Z * Z) : ~ precedes v v.
Proof. destruct v as [[a b] c]. unfold precedes. lia. Qed.

(** C10 (as amended): for every version triple of integers from 0 to
    Number.MAX_SAFE_INTEGER and every increment kind that a script
    recognizes, the resulting version is strictly greater than the original
    in semantic-version precedence, and the new version string differs from
    the old one. *)
Theorem version_strictly_increases (v : Z * Z * Z) (type : string) (k : kind) :
  safe v ->
  (Node.kind_of type = Some k ->
   exists v', Node.next_version type (version v) = Normal (version v')
              /\ precedes v v' /\ version v' <> version v)
  /\ (Bun.alias_of type = Some k ->
      exists v', Bun.next_version type (version v) = Normal (version v')
                 /\ precedes v v' /\ version v' <> version v).
Proof.
  intros Hs.
  assert (Hne : version (spec_increment k v) <> version v).
  { intros E. apply version_inj in E.
    - apply (precedes_irrefl v). rewrite <- E at 2. apply spec_increment_precedes.
    - apply spec_increment_valid, safe_valid, Hs.
    - apply safe_valid, Hs. }
  split; intros Hk; exists (spec_increment k v);
    (split; [| split; [apply spec_increment_precedes | exact Hne]]).
  - apply Node_next_version_rule; assumption.
  - apply Bun_next_version_rule; assumption.
Qed.

Lemma version_strictly_increases_witness :
  (exists v', Node.next_version "major" (version (0, 9, 9)) = Normal (version v')
              /\ precedes (0, 9, 9) v' /\ version v' <> version (0, 9, 9))
  /\ (exists v', Bun.next_version "max" (version (0, 9, 9)) = Normal (version v')
                 /\ precedes (0, 9, 9) v' /\ version v' <> version (0, 9, 9)).
Proof.
  assert (Hs : safe (0, 9, 9)) by (unfold safe, MAX_SAFE_INTEGER; lia).
  destruct (version_strictly_increases (0, 9, 9) "major" Major Hs) as [HN _].
  destruct (version_strictly_increases (0, 9, 9) "max" Major Hs) as [_ HB].
  split; [apply HN | apply HB]; reflexivity.
Defined.

(** The version [0.0.9007199254740992] is a fixed point of [patch]. *)
Lemma patch_fixed_point :
  valid (0, 0, 2 ^ 53)
  /\ Node.next_version "patch" (version (0, 0, 2 ^ 53)) = Normal (version (0, 0, 2 ^ 53))
  /\ Bun.next_version "patch" (version (0, 0, 2 ^ 53)) = Normal (version (0, 0, 2 ^ 53)).
Proof.
  split; [unfold valid; lia |]. split; vm_compute; reflexivity.
Qed.


(** ** Properties of objects *)

Lemma lookup_assign_same (key : string) (v : value) (props : list (string * value)) :
  lookup key (assign key v props) = Some v.
Proof.
  induction props as [| [k v'] rest IH]; simpl.
  - now rewrite String.eqb_refl.
  - destruct (String.eqb k key) eqn:E; simpl; rewrite E; [reflexivity | exact IH].
Qed.

Lemma lookup_assign_other (key key' : string) (v : value) (props : list (string * value)) :
  key' <> key -> lookup key' (assign key v props) = lookup key' props.
Proof.
  intros Hne. induction props as [| [k v'] rest IH]; simpl.
  - destruct (String.eqb_spec key key'); [congruence | reflexivity].
  - destruct (String.eqb_spec k key) as [-> | Hk]; simpl.
    + destruct (String.eqb_spec key key'); [congruence | reflexivity].
    + destruct (String.eqb k key'); [reflexivity | exact IH].
Qed.

Lemma keys_assign (key : string) (v x : value) (props : list (string * value)) :
  lookup key props = Some x -> map fst (assign key v props) = map fst props.
Proof.
  induction props as [| [k v'] rest IH]; simpl; [discriminate |].
  destruct (String.eqb k key); simpl; [reflexivity |].
  intros H. now rewrite IH.
Qed.

(** ** Runs of [updateVersion] *)

Lemma Bun_guard_passes (w : world) : Bun.guard w = (Normal tt, w).
Proof. reflexivity. Qed.

Section Runs.
Variable rt : runtime.
Variables (type : string) (w : world).

(** With a manifest that parses to a record with a string for its version,
    [updateVersion] does what [next_version] decides. *)
Lemma Node_updateVersion_string (text : string) (props : list (string * value)) (s : string) :
  manifest w = Contents text ->
  JSON_parse rt text = inl (Obj props) ->
  lookup "version" props = Some (Str s) ->
  Node.updateVersion rt type w
  = match Node.next_version type s with
    | Normal new => (Normal tt, updated rt props s new w)
    | Throw e => (Throw e, w)
    end.
Proof.
  intros Hm Hp Hv.
  unfold Node.updateVersion, bind, Node.readFileSync, lift, parse, get_property.
  rewrite Hm, Hp, Hv. cbn [split_receiver].
  destruct (Node.next_version type s) as [new | e]; [| reflexivity].
  unfold Node.writeFileSync, modify, set_property.
  rewrite lookup_assign_same. reflexivity.
Qed.

Lemma Bun_updateVersion_string (text : string) (props : list (string * value)) (s : string) :
  manifest w = Contents text ->
  JSON_parse rt text = inl (Obj props) ->
  lookup "version" props = Some (Str s) ->
  Bun.updateVersion rt type w
  = match Bun.next_version type s with
    | Normal new => (Normal tt, updated rt props s new w)
    | Throw e => (Throw e, w)
    end.
Proof.
  intros Hm Hp Hv.
  unfold Bun.updateVersion, bind, Bun.json, lift, parse, get_property.
  rewrite Bun_guard_passes, Hm, Hp, Hv. cbn [split_receiver].
  destruct (Bun.next_version type s) as [new | e]; [| reflexivity].
  unfold Bun.write, modify, set_property.
  rewrite lookup_assign_same. reflexivity.
Qed.

(** The version of a parsed manifest, as the receiver of [split]: the
    string, or the TypeError of reading [version] off [null] or of calling
    [split] on what is not a string. *)
Lemma version_receiver (packageJson : value) :
  (exists props s,
      packageJson = Obj props /\ lookup "version" props = Some (Str s))
  \/ (exists message,
         (get_property rt packageJson "version" = Throw (TypeError message)
          \/ exists v, get_property rt packageJson "version" = Normal v
                       /\ split_receiver rt v = Throw (TypeError message))
         /\ forall props s,
              packageJson = Obj props -> lookup "version" props <> Some (Str s)).
Proof.
  destruct packageJson as [| | b | x | s | items | props | p];
    try (right; eexists; split;
         [first [left; reflexivity | right; eexists; split; reflexivity]
         | discriminate]).
  destruct (lookup "version" props) as [v |] eqn:Hv.
  - destruct v as [| | b | x | s | items | props' | p];
      try (right; eexists; split;
           [right; eexists; split; [cbn; rewrite Hv |]; reflexivity
           | intros ? ? [= <-]; congruence]).
    left. eauto.
  - right. eexists. split.
    + right. eexists. split; [cbn; rewrite Hv |]; reflexivity.
    + intros ? ? [= <-]. congruence.
Qed.

Lemma Node_updateVersion_outcome :
  outcome rt type w Node.next_version (Node.updateVersion rt type w).
Proof.
  destruct (manifest w) as [| | text] eqn:Hm.
  - unfold Node.updateVersion, bind, Node.readFileSync. rewrite Hm.
    apply (missing _ _ _ _ ENOENT). assumption.
  - unfold Node.updateVersion, bind, Node.readFileSync. rewrite Hm.
    apply (missing _ _ _ _ EACCES). assumption.
  - destruct (JSON_parse rt text) as [packageJson | message] eqn:Hp.
    2:{ unfold Node.updateVersion, bind, Node.readFileSync, lift, parse.
        rewrite Hm, Hp. eapply unparsed; eassumption. }
    destruct (version_receiver packageJson)
      as [(props & s & -> & Hv) | (message & Hthrow & Hnot)].
    + rewrite (Node_updateVersion_string text props s Hm Hp Hv).
      destruct (Node.next_version type s) as [new | e] eqn:Hn.
      * eapply rewritten; eassumption.
      * eapply rejected; eassumption.
    + unfold Node.updateVersion, bind, Node.readFileSync, lift, parse.
      rewrite Hm, Hp.
      destruct Hthrow as [He | (v & Hv & He)]; [rewrite He | rewrite Hv, He];
        eapply mistyped; eassumption.
Qed.

Lemma Bun_updateVersion_outcome :
  outcome rt type w Bun.next_version (Bun.updateVersion rt type w).
Proof.
  destruct (manifest w) as [| | text] eqn:Hm.
  - unfold Bun.updateVersion, bind, Bun.json. rewrite Bun_guard_passes, Hm.
    apply (missing _ _ _ _ ENOENT). assumption.
  - unfold Bun.updateVersion, bind, Bun.json. rewrite Bun_guard_passes, Hm.
    apply (missing _ _ _ _ EACCES). assumption.
  - destruct (JSON_parse rt text) as [packageJson | message] eqn:Hp.
    2:{ unfold Bun.updateVersion, bind, Bun.json, lift, parse.
        rewrite Bun_guard_passes, Hm, Hp. eapply unparsed; eassumption. }
    destruct (version_receiver packageJson)
      as [(props & s & -> & Hv) | (message & Hthrow & Hnot)].
    + rewrite (Bun_updateVersion_string text props s Hm Hp Hv).
      destruct (Bun.next_version type s) as [new | e] eqn:Hn.
      * eapply rewritten; eassumption.
      * eapply rejected; eassumption.
    + unfold Bun.updateVersion, bind, Bun.json, lift, parse.
      rewrite Bun_guard_passes, Hm, Hp.
      destruct Hthrow as [He | (v & Hv & He)]; [rewrite He | rewrite Hv, He];
        eapply mistyped; eassumption.
Qed.

End Runs.

(** A version that is absent or not a string is the one case in which a
    manifest that parses stops [updateVersion] before the switch: a
    TypeError, and nothing is written. *)
Lemma outcome_mistyped (rt : runtime) (type : string) (w : world)
  (next : string -> string -> completion string) (r : completion unit * world)
  (text : string) (packageJson : value) :
  manifest w = Contents text ->
  JSON_parse rt text = inl packageJson ->
  (forall props s, packageJson = Obj props -> lookup "version" props <> Some (Str s)) ->
  outcome rt type w next r -> exists message, r = (Throw (TypeError message), w).
Proof.
  intros Hm Hp Hnot H.
  destruct H as [code Hc | ? message Hm' Hp' | ? ? message ? ? ? | ? props s e Hm' Hp' Hv ?
                | ? props s new Hm' Hp' Hv ?].
  - rewrite Hm in Hc. destruct code; discriminate.
  - rewrite Hm in Hm'. injection Hm' as <-. congruence.
  - eauto.
  - rewrite Hm in Hm'. injection Hm' as <-. rewrite Hp in Hp'. injection Hp' as ->.
    exfalso. apply (Hnot props s); [reflexivity | assumption].
  - rewrite Hm in Hm'. injection Hm' as <-. rewrite Hp in Hp'. injection Hp' as ->.
    exfalso. apply (Hnot props s); [reflexivity | assumption].
Qed.

(** X4: if the manifest parses to something that is not a record with a
    string for its version (the version is absent, a number, [null], or the
    manifest is no object), [updateVersion] fails with a TypeError before
    it looks at the type, and the world is as it was. *)
Lemma version_not_a_string (rt : runtime) (type : string) (w : world)
  (text : string) (packageJson : value) :
  manifest w = Contents text ->
  JSON_parse rt text = inl packageJson ->
  (forall props s, packageJson = Obj props -> lookup "version" props <> Some (Str s)) ->
  (exists message, Node.updateVersion rt type w = (Throw (TypeError message), w))
  /\ (exists message, Bun.updateVersion rt type w = (Throw (TypeError message), w)).
Proof.
  intros Hm Hp Hnot. split.
  - apply (outcome_mistyped rt type w Node.next_version _ text packageJson); auto.
    apply Node_updateVersion_outcome.
  - apply (outcome_mistyped rt type w Bun.next_version _ text packageJson); auto.
    apply Bun_updateVersion_outcome.
Qed.

(** The whole of [updateVersion] on a well-formed version: the manifest is
    rewritten with the version that the increment rule gives, and the
    message names both versions. *)
Corollary updateVersion_rule (rt : runtime) (type : string) (k : kind) (w : world)
  (text : string) (props : list (string * value)) (v : Z * Z * Z) :
  safe v ->
  manifest w = Contents text ->
  JSON_parse rt text = inl (Obj props) ->
  lookup "version" props = Some (Str (version v)) ->
  (Node.kind_of type = Some k ->
   Node.updateVersion rt type w
   = (Normal tt, updated rt props (version v) (version (spec_increment k v)) w))
  /\ (Bun.alias_of type = Some k ->
      Bun.updateVersion rt type w
      = (Normal tt, updated rt props (version v) (version (spec_increment k v)) w)).
Proof.
  intros Hs Hm Hp Hv. split; intros Hk.
  - rewrite (Node_updateVersion_string rt type w text props _ Hm Hp Hv).
    now rewrite (Node_next_version_rule v type k).
  - rewrite (Bun_updateVersion_string rt type w text props _ Hm Hp Hv).
    now rewrite (Bun_next_version_rule v type k).
Qed.

(** ** Unrecognized kinds *)

Lemma Node_kind_of_unrecognized (type : string) :
  ~ In type ["patch"; "minor"; "major"] -> Node.kind_of type = None.
Proof.
  intros H. unfold Node.kind_of.
  destruct (String.eqb_spec type "patch"); [subst; exfalso; apply H; simpl; tauto |].
  destruct (String.eqb_spec type "minor"); [subst; exfalso; apply H; simpl; tauto |].
  destruct (String.eqb_spec type "major"); [subst; exfalso; apply H; simpl; tauto |].
  reflexivity.
Qed.

Lemma Bun_alias_of_unrecognized (type : string) :
  ~ In type ["p"; "patch"; "min"; "minor"; "max"; "major"] -> Bun.alias_of type = None.
Proof.
  intros H. unfold Bun.alias_of.
  destruct (String.eqb_spec type "p"); [subst; exfalso; apply H; simpl; tauto |].
  destruct (String.eqb_spec type "patch"); [subst; exfalso; apply H; simpl; tauto |].
  destruct (String.eqb_spec type "min"); [subst; exfalso; apply H; simpl; tauto |].
  destruct (String.eqb_spec type "minor"); [subst; exfalso; apply H; simpl; tauto |].
  destruct (String.eqb_spec type "max"); [subst; exfalso; apply H; simpl; tauto |].
  destruct (String.eqb_spec type "major"); [subst; exfalso; apply H; simpl; tauto |].
  reflexivity.
Qed.

Lemma outcome_unrecognized (rt : runtime) (type : string) (w : world)
  (next : string -> string -> completion string) (r : completion unit * world) :
  (forall s, next type s = Throw (Error invalid_type_message)) ->
  outcome rt type w next r -> exists e, r = (Throw e, w).
Proof.
  intros Hnext H.
  destruct H as [code ? | ? message ? ? | ? ? message ? ? ? | ? ? s e ? ? ? ?
                | text props s new ? ? ? Hn]; eauto.
  rewrite Hnext in Hn. discriminate.
Qed.

(** C2: for every increment kind string that is not one of the recognized
    values (nor an alias, in the Bun script), [updateVersion] fails and
    leaves the world, so the manifest file, as it was; when the manifest is
    one that the script gets a version string from, the failure is the
    invalid-version-type error. *)
Theorem unrecognized_kind_rejected (rt : runtime) (type : string) (w : world) :
  (~ In type ["patch"; "minor"; "major"] ->
   (exists e, Node.updateVersion rt type w = (Throw e, w))
   /\ (forall text props s,
          manifest w = Contents text ->
          JSON_parse rt text = inl (Obj props) ->
          lookup "version" props = Some (Str s) ->
          Node.updateVersion rt type w = (Throw (Error invalid_type_message), w)))
  /\ (~ In type ["p"; "patch"; "min"; "minor"; "max"; "major"] ->
      (exists e, Bun.updateVersion rt type w = (Throw e, w))
      /\ (forall text props s,
             manifest w = Contents text ->
             JSON_parse rt text = inl (Obj props) ->
             lookup "version" props = Some (Str s) ->
             Bun.updateVersion rt type w = (Throw (Error invalid_type_message), w))).
Proof.
  split; intros Hk.
  - apply Node_kind_of_unrecognized in Hk. split.
    + apply (outcome_unrecognized rt type w Node.next_version).
      * intros s. now apply Node_next_version_unknown.
      * apply Node_updateVersion_outcome.
    + intros text props s Hm Hp Hv.
      rewrite (Node_updateVersion_string rt type w text props s Hm Hp Hv).
      now rewrite Node_next_version_unknown.
  - apply Bun_alias_of_unrecognized in Hk. split.
    + apply (outcome_unrecognized rt type w Bun.next_version).
      * intros s. now apply Bun_next_version_unknown.
      * apply Bun_updateVersion_outcome.
    + intros text props s Hm Hp Hv.
      rewrite (Bun_updateVersion_string rt type w text props s Hm Hp Hv).
      now rewrite Bun_next_version_unknown.
Qed.

Lemma not_in_by_eqb (type : string) (l : list string) :
  existsb (String.eqb type) l = false -> ~ In type l.
Proof.
  intros H Hin. assert (existsb (String.eqb type) l = true); [| congruence].
  apply existsb_exists. exists type. split; [assumption | apply String.eqb_refl].
Qed.

Lemma unrecognized_kind_rejected_witness :
  Node.updateVersion (scenario_runtime "1.2.3") "banana" (scenario_world "1.2.3")
  = (Throw (Error invalid_type_message), scenario_world "1.2.3")
  /\ Bun.updateVersion (scenario_runtime "1.2.3") "banana" (scenario_world "1.2.3")
     = (Throw (Error invalid_type_message), scenario_world "1.2.3")
  /\ Node.updateVersion (scenario_runtime "1.2.3") "p" (scenario_world "1.2.3")
     = (Throw (Error invalid_type_message), scenario_world "1.2.3").
Proof.
  assert (H3 : ~ In "banana" ["patch"; "minor"; "major"])
    by (apply not_in_by_eqb; reflexivity).
  assert (H6 : ~ In "banana" ["p"; "patch"; "min"; "minor"; "max"; "major"])
    by (apply not_in_by_eqb; reflexivity).
  assert (Hp : ~ In "p" ["patch"; "minor"; "major"])
    by (apply not_in_by_eqb; reflexivity).
  destruct (unrecognized_kind_rejected (scenario_runtime "1.2.3") "banana"
              (scenario_world "1.2.3")) as [HN HB].
  destruct (unrecognized_kind_rejected (scenario_runtime "1.2.3") "p"
              (scenario_world "1.2.3")) as [HN' _].
  split; [| split].
  - apply (proj2 (HN H3) (scenario_text "1.2.3") (scenario_props "1.2.3") "1.2.3");
      reflexivity.
  - apply (proj2 (HB H6) (scenario_text "1.2.3") (scenario_props "1.2.3") "1.2.3");
      reflexivity.
  - apply (proj2 (HN' Hp) (scenario_text "1.2.3") (scenario_props "1.2.3") "1.2.3");
      reflexivity.
Defined.

(** ** A manifest that cannot be read *)

(** C3: if the manifest file is absent or unreadable, [updateVersion]
    fails with the system error of the file read (ENOENT for an absent
    file) and the world, so the manifest, is as it was: nothing is
    written. *)
Theorem unreadable_manifest_rejected (rt : runtime) (type : string) (w : world) :
  manifest w = Absent \/ manifest w = Unreadable ->
  exists code,
    Node.updateVersion rt type w = (Throw (SystemError code (errno_message rt code)), w)
    /\ Bun.updateVersion rt type w = (Throw (SystemError code (errno_message rt code)), w)
    /\ (manifest w = Absent -> code = ENOENT).
Proof.
  intros [Hm | Hm]; [exists ENOENT | exists EACCES];
    unfold Node.updateVersion, Bun.updateVersion, bind, Node.readFileSync, Bun.json;
    rewrite Bun_guard_passes, Hm; repeat split; congruence.
Qed.

Lemma unreadable_manifest_rejected_witness :
  exists code,
    Node.updateVersion (scenario_runtime "1.2.3") "patch" (initial Absent)
    = (Throw (SystemError code (errno_message (scenario_runtime "1.2.3") code)), initial Absent)
    /\ Bun.updateVersion (scenario_runtime "1.2.3") "patch" (initial Absent)
       = (Throw (SystemError code (errno_message (scenario_runtime "1.2.3") code)), initial Absent)
    /\ (manifest (initial Absent) = Absent -> code = ENOENT).
Proof.
  apply (unreadable_manifest_rejected (scenario_runtime "1.2.3") "patch" (initial Absent)).
  left. reflexivity.
Defined.

(** ** The guard of the Bun script *)

Lemma outcome_not_guard (rt : runtime) (type : string) (w : world)
  (next : string -> string -> completion string) (r : completion unit * world) :
  (forall s e, next type s = Throw e -> e = Error invalid_type_message) ->
  outcome rt type w next r -> fst r <> Throw (Error "package.json file not found").
Proof.
  intros Hnext H.
  destruct H as [code ? | ? message ? ? | ? ? message ? ? ? | ? ? s e ? ? ? Hn
                | text props s new ? ? ? Hn];
    cbn [fst]; try discriminate.
  apply Hnext in Hn. subst e. intros E. vm_compute in E. discriminate E.
Qed.

Lemma Bun_next_version_throws (type s : string) (e : exception) :
  Bun.next_version type s = Throw e -> e = Error invalid_type_message.
Proof.
  destruct (Bun.alias_of type) as [k |] eqn:Hk.
  - rewrite (Bun_next_version_kind type k) by assumption. discriminate.
  - rewrite Bun_next_version_unknown by assumption. congruence.
Qed.

(** C4: in the Bun script the guard [if (!file.exists())] takes its error
    branch in no state of the file system: [file.exists()] is a promise,
    which is truthy, so the condition is false, the guard completes
    normally, and no run of [updateVersion] ends in the error
    "package.json file not found". *)
Theorem Bun_guard_is_dead (rt : runtime) (type : string) (w : world) :
  (exists p, Bun.exists_ w = (Normal (Promise p), w)
             /\ negb (ToBoolean (Promise p)) = false)
  /\ Bun.guard w = (Normal tt, w)
  /\ fst (Bun.updateVersion rt type w) <> Throw (Error "package.json file not found").
Proof.
  split; [| split].
  - eexists. split; reflexivity.
  - reflexivity.
  - apply (outcome_not_guard rt type w Bun.next_version).
    + intros s e. apply Bun_next_version_throws.
    + apply Bun_updateVersion_outcome.
Qed.

(** ** Versions that are not three numbers *)







(** ** The other fields of the manifest *)

(** C6: for every manifest record and every recognized increment kind, the
    record that [updateVersion] writes back differs from the one it read
    only in the version field: the fields are the same, in the same order,
    and each one other than [version] has the value it had. *)
Theorem other_fields_preserved (rt : runtime) (type : string) (k : kind)
  (w : world) (text : string) (props : list (string * value)) (s : string) :
  manifest w = Contents text ->
  JSON_parse rt text = inl (Obj props) ->
  lookup "version" props = Some (Str s) ->
  exists new props',
    (Node.kind_of type = Some k ->
     Node.next_version type s = Normal new
     /\ Node.updateVersion rt type w
        = (Normal tt,
           console_log (success_message (Str s) (Str new))
             (set_manifest (Contents (JSON_stringify rt (Obj props'))) w)))
    /\ (Bun.alias_of type = Some k ->
        Bun.next_version type s = Normal new
        /\ Bun.updateVersion rt type w
           = (Normal tt,
              console_log (success_message (Str s) (Str new))
                (set_manifest (Contents (JSON_stringify rt (Obj props'))) w)))
    /\ map fst props' = map fst props
    /\ (forall key, key <> "version" -> lookup key props' = lookup key props)
    /\ lookup "version" props' = Some (Str new).
Proof.
  intros Hm Hp Hv.
  exists (template (bumped k (destructure (split "." s)))).
  eexists (assign "version" _ props).
  split; [| split; [| split; [| split]]].
  - intros Hk. split; [now apply Node_next_version_kind |].
    rewrite (Node_updateVersion_string rt type w text props s Hm Hp Hv).
    rewrite (Node_next_version_kind type k s Hk). reflexivity.
  - intros Hk. split; [now apply Bun_next_version_kind |].
    rewrite (Bun_updateVersion_string rt type w text props s Hm Hp Hv).
    rewrite (Bun_next_version_kind type k s Hk). reflexivity.
  - eapply keys_assign. eassumption.
  - intros key Hkey. now apply lookup_assign_other.
  - apply lookup_assign_same.
Qed.

Lemma other_fields_preserved_witness :
  exists new props',
    (Node.kind_of "minor" = Some Minor ->
     Node.next_version "minor" "1.2.3" = Normal new
     /\ Node.updateVersion (scenario_runtime "1.2.3") "minor" (scenario_world "1.2.3")
        = (Normal tt,
           console_log (success_message (Str "1.2.3") (Str new))
             (set_manifest
                (Contents (JSON_stringify (scenario_runtime "1.2.3") (Obj props')))
                (scenario_world "1.2.3"))))
    /\ (Bun.alias_of "minor" = Some Minor ->
        Bun.next_version "minor" "1.2.3" = Normal new
        /\ Bun.updateVersion (scenario_runtime "1.2.3") "minor" (scenario_world "1.2.3")
           = (Normal tt,
              console_log (success_message (Str "1.2.3") (Str new))
                (set_manifest
                   (Contents (JSON_stringify (scenario_runtime "1.2.3") (Obj props')))
                   (scenario_world "1.2.3"))))
    /\ map fst props' = map fst (scenario_props "1.2.3")
    /\ (forall key, key <> "version" -> lookup key props' = lookup key (scenario_props "1.2.3"))
    /\ lookup "version" props' = Some (Str new).
Proof.
  apply (other_fields_preserved (scenario_runtime "1.2.3") "minor" Minor
           (scenario_world "1.2.3") (scenario_text "1.2.3") (scenario_props "1.2.3") "1.2.3");
    reflexivity.
Defined.

(** ** The two scripts side by side *)

Lemma canonical_kind (type : string) :
  In type ["patch"; "minor"; "major"] ->
  exists k, Node.kind_of type = Some k /\ Bun.alias_of type = Some k.
Proof.
  simpl. intros [<- | [<- | [<- | []]]]; eexists; split; reflexivity.
Qed.

(** C7 (as amended): for every manifest content that the readers of both
    scripts ([JSON.parse] of the text that [fs.readFileSync] gives in the
    Node script, [file.json()] in the Bun script) parse to the same record,
    whose version is a string (a well-formed three-part version in
    particular), and every kind among patch, minor and major, the two
    scripts compute the same new version string and hand the same updated
    record to their JSON printers, with the same message. *)
Theorem variants_agree (node bun : runtime) (type : string) (w : world)
  (text : string) (props : list (string * value)) (s : string) :
  In type ["patch"; "minor"; "major"] ->
  manifest w = Contents text ->
  JSON_parse node text = inl (Obj props) ->
  JSON_parse bun text = inl (Obj props) ->
  lookup "version" props = Some (Str s) ->
  exists new,
    Node.next_version type s = Normal new
    /\ Bun.next_version type s = Normal new
    /\ Node.updateVersion node type w = (Normal tt, updated node props s new w)
    /\ Bun.updateVersion bun type w = (Normal tt, updated bun props s new w).
Proof.
  intros Hin Hm Hn Hb Hv. destruct (canonical_kind type Hin) as (k & HkN & HkB).
  exists (template (bumped k (destructure (split "." s)))).
  pose proof (Node_next_version_kind type k s HkN) as EN.
  pose proof (Bun_next_version_kind type k s HkB) as EB.
  repeat split; try assumption.
  - rewrite (Node_updateVersion_string node type w text props s Hm Hn Hv), EN. reflexivity.
  - rewrite (Bun_updateVersion_string bun type w text props s Hm Hb Hv), EB. reflexivity.
Qed.

Lemma variants_agree_witness :
  exists new,
    Node.next_version "patch" "0.0.9" = Normal new
    /\ Bun.next_version "patch" "0.0.9" = Normal new
    /\ Node.updateVersion (scenario_runtime "0.0.9") "patch" (scenario_world "0.0.9")
       = (Normal tt,
          updated (scenario_runtime "0.0.9") (scenario_props "0.0.9") "0.0.9" new
            (scenario_world "0.0.9"))
    /\ Bun.updateVersion (bun_reader (scenario_runtime "0.0.9")) "patch"
         (scenario_world "0.0.9")
       = (Normal tt,
          updated (bun_reader (scenario_runtime "0.0.9")) (scenario_props "0.0.9")
            "0.0.9" new (scenario_world "0.0.9")).
Proof.
  apply (variants_agree (scenario_runtime "0.0.9") (bun_reader (scenario_runtime "0.0.9"))
           "patch" (scenario_world "0.0.9") (scenario_text "0.0.9")
           (scenario_props "0.0.9"));
    try reflexivity.
  simpl. tauto.
Defined.

(** On the scenario's manifest with a byte order mark before it, a
    manifest with the well-formed version 1.2.3, the scripts do not do the
    same with [patch]: the Node script hands the mark to [JSON.parse] and
    ends in its SyntaxError, with nothing written, and the Bun script,
    whose [file.json()] drops the mark, rewrites the manifest with 1.2.4. *)
Lemma variants_disagree_on_byte_order_mark :
  Node.updateVersion (scenario_runtime "1.2.3") "patch"
    (initial (Contents (byte_order_mark ++ scenario_text "1.2.3")))
  = (Throw (SyntaxError "Unexpected token"),
     initial (Contents (byte_order_mark ++ scenario_text "1.2.3")))
  /\ Bun.updateVersion (bun_reader (scenario_runtime "1.2.3")) "patch"
       (initial (Contents (byte_order_mark ++ scenario_text "1.2.3")))
     = (Normal tt,
        updated (bun_reader (scenario_runtime "1.2.3")) (scenario_props "1.2.3")
          "1.2.3" (version (1, 2, 4))
          (initial (Contents (byte_order_mark ++ scenario_text "1.2.3")))).
Proof. split; vm_compute; reflexivity. Qed.

(** ** The exit status *)

(** C8: for every input line, once the single update has completed,
    normally or not, the process exits with status 1, which is not zero:
    the exit is unconditional. *)
Theorem exit_status_is_one (rt : runtime) (answer : string) (w : world) :
  exists status,
    status <> 0
    /\ exit_code (Node.startScript rt answer w) = Some status
    /\ exit_code (Bun.startScript rt answer w) = Some status.
Proof.
  exists 1. split; [discriminate |].
  unfold Node.startScript, Bun.startScript.
  destruct (Node.updateVersion rt (trim answer) _) as [[] ?];
    destruct (Bun.updateVersion rt (trim answer) _) as [[] ?]; split; reflexivity.
Qed.

(** ** The abbreviations of the Bun script *)

Lemma Bun_updateVersion_same (rt : runtime) (type type' : string) (w : world) :
  (forall s, Bun.next_version type s = Bun.next_version type' s) ->
  Bun.updateVersion rt type w = Bun.updateVersion rt type' w.
Proof.
  intros H. unfold Bun.updateVersion, bind, Bun.json, lift.
  rewrite !Bun_guard_passes.
  destruct (manifest w); try reflexivity.
  destruct (parse rt text); try reflexivity.
  destruct (get_property rt a "version"); try reflexivity.
  destruct (split_receiver rt a0); try reflexivity.
  rewrite H. reflexivity.
Qed.

Lemma Bun_alias_same (type type' : string) (k : kind) (s : string) :
  Bun.alias_of type = Some k -> Bun.alias_of type' = Some k ->
  exists new, Bun.next_version type s = Normal new /\ Bun.next_version type' s = Normal new.
Proof.
  intros H H'. exists (template (bumped k (destructure (split "." s)))).
  split; apply Bun_next_version_kind; assumption.
Qed.

(** C9: in the Bun script, which takes the abbreviations, the kinds [p],
    [min] and [max] make the same new version as [patch], [minor] and
    [major], and the same run of [updateVersion], on every current version
    and in every world. *)
Theorem aliases_agree (rt : runtime) (w : world) (s : string) :
  (exists new, Bun.next_version "p" s = Normal new
               /\ Bun.next_version "patch" s = Normal new)
  /\ (exists new, Bun.next_version "min" s = Normal new
                  /\ Bun.next_version "minor" s = Normal new)
  /\ (exists new, Bun.next_version "max" s = Normal new
                  /\ Bun.next_version "major" s = Normal new)
  /\ Bun.updateVersion rt "p" w = Bun.updateVersion rt "patch" w
  /\ Bun.updateVersion rt "min" w = Bun.updateVersion rt "minor" w
  /\ Bun.updateVersion rt "max" w = Bun.updateVersion rt "major" w.
Proof.
  assert (E : forall type type' k,
             Bun.alias_of type = Some k -> Bun.alias_of type' = Some k ->
             forall s', Bun.next_version type s' = Bun.next_version type' s').
  { intros type type' k H H' s'.
    destruct (Bun_alias_same type type' k s' H H') as (new & -> & ->). reflexivity. }
  split; [| split; [| split; [| split; [| split]]]].
  - apply (Bun_alias_same "p" "patch" Patch); reflexivity.
  - apply (Bun_alias_same "min" "minor" Minor); reflexivity.
  - apply (Bun_alias_same "max" "major" Major); reflexivity.
  - apply Bun_updateVersion_same, (E "p" "patch" Patch); reflexivity.
  - apply Bun_updateVersion_same, (E "min" "minor" Minor); reflexivity.
  - apply Bun_updateVersion_same, (E "max" "major" Major); reflexivity.
Qed.

(** ** The scenarios of the specification *)

Example scenario_minor :
  Node.startScript (scenario_runtime "1.2.3") "minor" (scenario_world "1.2.3")
  = {| manifest :=
         Contents (JSON_stringify (scenario_runtime "1.2.3")
                     (Obj [("version", Str "1.3.0"); ("name", Str "x")]));
       stdout := [prompt; "✅ Successfully updated version: 1.2.3 → 1.3.0"];
       stderr := [];
       rl_open := false;
       exit_code := Some 1 |}.
Proof. vm_compute. reflexivity. Qed.

Example scenario_patch_carries :
  Bun.next_version "patch" "0.0.9" = Normal "0.0.10".
Proof. vm_compute. reflexivity. Qed.

Example scenario_banana :
  Bun.startScript (scenario_runtime "1.2.3") " banana " (scenario_world "1.2.3")
  = {| manifest := Contents (scenario_text "1.2.3");
       stdout := [prompt];
       stderr := [invalid_type_message];
       rl_open := true;
       exit_code := Some 1 |}.
Proof. vm_compute. reflexivity. Qed.

Example scenario_absent :
  Node.startScript (scenario_runtime "1.2.3") "patch" (initial Absent)
  = {| manifest := Absent;
       stdout := [prompt];
       stderr := ["ENOENT: no such file or directory, open './package.json'"];
       rl_open := false;
       exit_code := Some 1 |}.
Proof. vm_compute. reflexivity. Qed.

Example scenario_malformed :
  Node.next_version "major" "abc" = Normal "NaN.0.0"
  /\ Node.next_version "patch" "1" = Normal "1.undefined.NaN"
  /\ Bun.next_version "min" "1.x.3" = Normal "1.NaN.0".
Proof. repeat split; vm_compute; reflexivity. Qed.

Example number_samples :
  Number "0x1F" = of_int 31
  /\ Number " 12 " = of_int 12
  /\ Number "" = of_int 0
  /\ Number "1e3" = of_int 1000
  /\ Number "1_0" = NaN
  /\ Number "9007199254740993" = of_int 9007199254740992
  /\ Number "-0" = NegZero
  /\ Number "1e400" = Infinity false
  /\ Number "5e-324" = Fin 1 1074
  /\ Number "0.1" = Fin 3602879701896397 55
  /\ Number_toString (Number "1e-7") = "1e-7"
  /\ Number_toString (Number "0.000001") = "0.000001"
  /\ Number_toString (add1 (Number "0.1")) = "1.1"
  /\ Number_toString (Number "1e21") = "1e+21"
  /\ Number_toString (Number "1152921504606846976") = "1152921504606847000"
  /\ Number_toString (add1 (Number "9007199254740992")) = "9007199254740992".
Proof. repeat split; vm_compute; reflexivity. Qed.

(** * Further properties *)

(** ** All or nothing *)



(** ** Where the invalid-type error comes from *)

Lemma Node_kind_of_none (type : string) :
  Node.kind_of type = None -> ~ In type ["patch"; "minor"; "major"].
Proof.
  intros H Hin. simpl in Hin.
  destruct Hin as [<- | [<- | [<- | []]]]; discriminate H.
Qed.

Lemma Bun_alias_of_none (type : string) :
  Bun.alias_of type = None -> ~ In type ["p"; "patch"; "min"; "minor"; "max"; "major"].
Proof.
  intros H Hin. simpl in Hin.
  destruct Hin as [<- | [<- | [<- | [<- | [<- | [<- | []]]]]]]; discriminate H.
Qed.

Lemma outcome_error (rt : runtime) (type : string) (w w' : world)
  (next : string -> string -> completion string) (m : string) :
  outcome rt type w next (Throw (Error m), w') ->
  w' = w
  /\ exists text props s,
       manifest w = Contents text
       /\ JSON_parse rt text = inl (Obj props)
       /\ lookup "version" props = Some (Str s)
       /\ next type s = Throw (Error m).
Proof.
  intros H. inversion H; subst; eauto 10.
Qed.

(** X2: an [Error] (as opposed to the engine's own errors) comes out of
    [updateVersion] only as the invalid-type error, only for a type that
    the script does not recognize, and only after the manifest has been
    read and parsed and has given a version string; the world is as it
    was. *)
Theorem Error_only_for_unrecognized (rt : runtime) (type : string) (w w' : world)
  (m : string) :
  (Node.updateVersion rt type w = (Throw (Error m), w') ->
   m = invalid_type_message
   /\ ~ In type ["patch"; "minor"; "major"]
   /\ w' = w
   /\ exists text props s,
        manifest w = Contents text
        /\ JSON_parse rt text = inl (Obj props)
        /\ lookup "version" props = Some (Str s))
  /\ (Bun.updateVersion rt type w = (Throw (Error m), w') ->
      m = invalid_type_message
      /\ ~ In type ["p"; "patch"; "min"; "minor"; "max"; "major"]
      /\ w' = w
      /\ exists text props s,
           manifest w = Contents text
           /\ JSON_parse rt text = inl (Obj props)
           /\ lookup "version" props = Some (Str s)).
Proof.
  split; intros H.
  - pose proof (Node_updateVersion_outcome rt type w) as O. rewrite H in O.
    apply outcome_error in O. destruct O as (-> & text & props & s & Hm & Hp & Hv & Hn).
    destruct (Node.kind_of type) as [k |] eqn:Hk.
    + rewrite (Node_next_version_kind type k) in Hn by assumption. discriminate.
    + rewrite Node_next_version_unknown in Hn by assumption. injection Hn as <-.
      split; [reflexivity | split; [now apply Node_kind_of_none | split; [reflexivity | eauto 10]]].
  - pose proof (Bun_updateVersion_outcome rt type w) as O. rewrite H in O.
    apply outcome_error in O. destruct O as (-> & text & props & s & Hm & Hp & Hv & Hn).
    destruct (Bun.alias_of type) as [k |] eqn:Hk.
    + rewrite (Bun_next_version_kind type k) in Hn by assumption. discriminate.
    + rewrite Bun_next_version_unknown in Hn by assumption. injection Hn as <-.
      split; [reflexivity | split; [now apply Bun_alias_of_none | split; [reflexivity | eauto 10]]].
Qed.

Lemma Error_only_for_unrecognized_witness :
  invalid_type_message = invalid_type_message
  /\ ~ In "banana" ["patch"; "minor"; "major"]
  /\ scenario_world "1.2.3" = scenario_world "1.2.3"
  /\ exists text props s,
       manifest (scenario_world "1.2.3") = Contents text
       /\ JSON_parse (scenario_runtime "1.2.3") text = inl (Obj props)
       /\ lookup "version" props = Some (Str s).
Proof.
  apply (proj1 (Error_only_for_unrecognized (scenario_runtime "1.2.3") "banana"
                  (scenario_world "1.2.3") (scenario_world "1.2.3")
                  invalid_type_message)).
  reflexivity.
Defined.

(** ** A manifest that does not parse, a version that is not a string *)

(** X3: if the manifest is there and is not JSON, [updateVersion] fails
    with the SyntaxError of the parser, whatever the type, and the world is
    as it was. *)
Theorem unparsable_manifest_rejected (rt : runtime) (type : string) (w : world)
  (text message : string) :
  manifest w = Contents text ->
  JSON_parse rt text = inr message ->
  Node.updateVersion rt type w = (Throw (SyntaxError message), w)
  /\ Bun.updateVersion rt type w = (Throw (SyntaxError message), w).
Proof.
  intros Hm Hp.
  unfold Node.updateVersion, Bun.updateVersion, bind, Node.readFileSync, Bun.json,
    lift, parse.
  rewrite Bun_guard_passes, Hm, Hp. split; reflexivity.
Qed.

Lemma unparsable_manifest_rejected_witness :
  Node.updateVersion (scenario_runtime "1.2.3") "patch" (initial (Contents "{"))
  = (Throw (SyntaxError "Unexpected token"), initial (Contents "{"))
  /\ Bun.updateVersion (scenario_runtime "1.2.3") "patch" (initial (Contents "{"))
     = (Throw (SyntaxError "Unexpected token"), initial (Contents "{")).
Proof.
  apply (unparsable_manifest_rejected (scenario_runtime "1.2.3") "patch"
           (initial (Contents "{")) "{" "Unexpected token"); reflexivity.
Defined.

Lemma version_not_a_string_witness :
  (exists message,
      Node.updateVersion (table_runtime [("{}", Obj [("name", Str "x")])]) "patch"
        (initial (Contents "{}"))
      = (Throw (TypeError message), initial (Contents "{}")))
  /\ (exists message,
         Bun.updateVersion (table_runtime [("{}", Obj [("name", Str "x")])]) "patch"
           (initial (Contents "{}"))
         = (Throw (TypeError message), initial (Contents "{}"))).
Proof.
  apply (version_not_a_string (table_runtime [("{}", Obj [("name", Str "x")])]) "patch"
           (initial (Contents "{}")) "{}" (Obj [("name", Str "x")])).
  - reflexivity.
  - reflexivity.
  - intros props s [= <-]. discriminate.
Defined.

(** ** Where the two scripts differ *)








(** X6: on the abbreviations the scripts part: with a manifest that gives
    a version string, the Node script rejects [p], [min] and [max] with the
    invalid-type error and writes nothing, and the Bun script rewrites the
    manifest. *)
Theorem variants_part_on_aliases (rt : runtime) (type : string) (w : world)
  (text : string) (props : list (string * value)) (s : string) :
  In type ["p"; "min"; "max"] ->
  manifest w = Contents text ->
  JSON_parse rt text = inl (Obj props) ->
  lookup "version" props = Some (Str s) ->
  Node.updateVersion rt type w = (Throw (Error invalid_type_message), w)
  /\ exists new, Bun.updateVersion rt type w = (Normal tt, updated rt props s new w).
Proof.
  intros Hin Hm Hp Hv.
  rewrite (Node_updateVersion_string rt type w text props s Hm Hp Hv).
  rewrite (Bun_updateVersion_string rt type w text props s Hm Hp Hv).
  simpl in Hin. destruct Hin as [<- | [<- | [<- | []]]].
  - rewrite Node_next_version_unknown by reflexivity.
    rewrite (Bun_next_version_kind "p" Patch) by reflexivity. eauto.
  - rewrite Node_next_version_unknown by reflexivity.
    rewrite (Bun_next_version_kind "min" Minor) by reflexivity. eauto.
  - rewrite Node_next_version_unknown by reflexivity.
    rewrite (Bun_next_version_kind "max" Major) by reflexivity. eauto.
Qed.

Lemma variants_part_on_aliases_witness :
  Node.updateVersion (scenario_runtime "1.2.3") "min" (scenario_world "1.2.3")
  = (Throw (Error invalid_type_message), scenario_world "1.2.3")
  /\ exists new,
       Bun.updateVersion (scenario_runtime "1.2.3") "min" (scenario_world "1.2.3")
       = (Normal tt,
          updated (scenario_runtime "1.2.3") (scenario_props "1.2.3") "1.2.3" new
            (scenario_world "1.2.3")).
Proof.
  apply (variants_part_on_aliases (scenario_runtime "1.2.3") "min" (scenario_world "1.2.3")
           (scenario_text "1.2.3") (scenario_props "1.2.3") "1.2.3");
    try reflexivity.
  simpl. tauto.
Defined.



(** ** What a run of the program reports *)

Lemma stdout_updated (rt : runtime) (props : list (string * value))
  (old new : string) (w : world) :
  stdout (updated rt props old new w)
  = (stdout w ++ [success_message (Str old) (Str new)])%list.
Proof. reflexivity. Qed.



(** ** White space around the answer *)

Lemma drop_ws_visible (backwards : bool) (c : ascii) (r : string) :
  visible c = true -> drop_ws backwards (String c r) = String c r.
Proof.
  intros H. unfold visible in H. apply andb_true_iff in H. destruct H as [H1 H2].
  apply Z.leb_le in H1, H2. cbn [drop_ws].
  assert (W1 : is_ws1 c = false) by (unfold is_ws1; decide_codes).
  rewrite W1. destruct r as [| c2 r2]; [reflexivity |].
  assert (W2 : (if backwards then is_ws2 c2 c else is_ws2 c c2) = false)
    by (destruct backwards; unfold is_ws2; decide_codes).
  rewrite W2. destruct r2 as [| c3 r3]; [reflexivity |].
  assert (W3 : (if backwards then is_ws3 c3 c2 c else is_ws3 c c2 c3) = false)
    by (destruct backwards; unfold is_ws3; cbv zeta; decide_codes).
  rewrite W3. reflexivity.
Qed.

Lemma drop_ws_blank (backwards : bool) (pad s : string) :
  blank pad = true -> drop_ws backwards (pad ++ s) = drop_ws backwards s.
Proof.
  induction pad as [| c pad IH]; [reflexivity |].
  cbn [blank]. intros H. apply andb_true_iff in H. destruct H as [Hc Hpad].
  change (String c pad ++ s) with (String c (pad ++ s)).
  cbn [drop_ws]. rewrite Hc. apply IH. assumption.
Qed.

Lemma list_ascii_app (s t : string) :
  list_ascii_of_string (s ++ t) = (list_ascii_of_string s ++ list_ascii_of_string t)%list.
Proof. induction s as [| c s IH]; simpl; [reflexivity | now rewrite IH]. Qed.

Lemma string_of_list_app (l m : list ascii) :
  string_of_list_ascii (l ++ m) = string_of_list_ascii l ++ string_of_list_ascii m.
Proof. induction l as [| c l IH]; simpl; [reflexivity | now rewrite IH]. Qed.

Lemma string_rev_app (s t : string) : string_rev (s ++ t) = string_rev t ++ string_rev s.
Proof.
  unfold string_rev. rewrite list_ascii_app, rev_app_distr. apply string_of_list_app.
Qed.

Lemma blank_forallb (s : string) : blank s = forallb is_ws1 (list_ascii_of_string s).
Proof. induction s as [| c s IH]; simpl; [reflexivity | now rewrite IH]. Qed.

Lemma blank_rev (s : string) : blank (string_rev s) = blank s.
Proof.
  unfold string_rev. rewrite !blank_forallb, list_ascii_of_string_of_list_ascii.
  induction (list_ascii_of_string s) as [| c l IH]; [reflexivity |].
  simpl. rewrite forallb_app, IH. simpl. rewrite andb_true_r. apply andb_comm.
Qed.

(** [trim] takes the one-byte white space off both ends of a word and
    nothing off the word. *)
Lemma trim_padded (pad1 pad2 s : string) :
  blank pad1 = true -> blank pad2 = true -> word s = true ->
  trim (pad1 ++ s ++ pad2) = s.
Proof.
  intros H1 H2 Hw. unfold word in Hw.
  destruct s as [| first r]; [discriminate |].
  destruct (string_rev (String first r)) as [| last r'] eqn:E; [discriminate |].
  apply andb_true_iff in Hw. destruct Hw as [Hf Hl].
  unfold trim. rewrite drop_ws_blank by assumption.
  change (String first r ++ pad2) with (String first (r ++ pad2)).
  rewrite drop_ws_visible by assumption.
  change (String first (r ++ pad2)) with (String first r ++ pad2).
  rewrite string_rev_app, drop_ws_blank by (now rewrite blank_rev).
  rewrite E, drop_ws_visible by assumption.
  rewrite <- E. apply string_rev_involutive.
Qed.

Lemma spacing_blank (s : string) : spacing s = true -> blank s = true.
Proof.
  induction s as [| c s IH]; [reflexivity |].
  cbn [spacing blank]. intros H. apply andb_true_iff in H. destruct H as [Hc Hs].
  rewrite (IH Hs), andb_true_r. unfold is_ws1.
  apply orb_true_iff in Hc. destruct Hc as [Hc | Hc]; apply Z.eqb_eq in Hc; rewrite Hc;
    reflexivity.
Qed.

(** X9: the program takes a word typed on its line with spaces or tabs
    before and after it as the word itself: the run is the same. *)
Theorem startScript_ignores_padding (rt : runtime) (pad1 pad2 answer : string)
  (w : world) :
  spacing pad1 = true -> spacing pad2 = true ->
  word answer = true -> one_line answer = true ->
  Node.startScript rt (pad1 ++ answer ++ pad2) w = Node.startScript rt answer w
  /\ Bun.startScript rt (pad1 ++ answer ++ pad2) w = Bun.startScript rt answer w.
Proof.
  intros H1 H2 Hw _. apply spacing_blank in H1, H2.
  assert (E : trim (pad1 ++ answer ++ pad2) = trim answer).
  { rewrite (trim_padded pad1 pad2 answer H1 H2 Hw).
    symmetry. rewrite <- (string_app_empty answer) at 1.
    apply (trim_padded "" "" answer); auto. }
  unfold Node.startScript, Bun.startScript. rewrite E. split; reflexivity.
Qed.

Lemma startScript_ignores_padding_witness :
  Node.startScript (scenario_runtime "1.2.3") ("  " ++ "minor" ++ String "009" " ")
    (scenario_world "1.2.3")
  = Node.startScript (scenario_runtime "1.2.3") "minor" (scenario_world "1.2.3")
  /\ Bun.startScript (scenario_runtime "1.2.3") ("  " ++ "minor" ++ String "009" " ")
       (scenario_world "1.2.3")
     = Bun.startScript (scenario_runtime "1.2.3") "minor" (scenario_world "1.2.3").
Proof.
  apply (startScript_ignores_padding (scenario_runtime "1.2.3") "  " (String "009" " ")
           "minor" (scenario_world "1.2.3")); reflexivity.
Defined.

(** ** Versions spelt otherwise *)

Lemma nth_map_some {A B : Type} (f : A -> B) (l : list A) (i : nat) (x : A) (d : B) :
  nth_error l i = Some x -> nth i (map f l) d = f x.
Proof.
  revert i. induction l as [| y l IH]; intros [| i]; simpl; try discriminate.
  - now intros [= ->].
  - apply IH.
Qed.

(** X10: the new version depends on the numbers that [Number] reads in the
    first three parts only, and is always spelt canonically: however the
    parts are written (leading zeros, white space, another radix, an empty
    part for zero) and whatever follows the third, as long as the three
    read as integers up to Number.MAX_SAFE_INTEGER the result is the
    version string of the incremented triple. *)
Theorem next_version_normalises (s p0 p1 p2 : string) (a b c : Z)
  (type : string) (k : kind) :
  safe (a, b, c) ->
  nth_error (split "." s) 0 = Some p0 -> Number p0 = of_int a ->
  nth_error (split "." s) 1 = Some p1 -> Number p1 = of_int b ->
  nth_error (split "." s) 2 = Some p2 -> Number p2 = of_int c ->
  (Node.kind_of type = Some k ->
   Node.next_version type s = Normal (version (spec_increment k (a, b, c))))
  /\ (Bun.alias_of type = Some k ->
      Bun.next_version type s = Normal (version (spec_increment k (a, b, c)))).
Proof.
  intros Hs H0 N0 H1 N1 H2 N2.
  assert (D : destructure (split "." s) = (Num (of_int a), Num (of_int b), Num (of_int c))).
  { unfold destructure. cbv zeta.
    rewrite (nth_map_some _ _ 0 p0 _ H0), (nth_map_some _ _ 1 p1 _ H1),
      (nth_map_some _ _ 2 p2 _ H2), N0, N1, N2. reflexivity. }
  pose proof (bumped_safe k (a, b, c) Hs) as B. cbv beta iota in B.
  split; intros Hk.
  - rewrite (Node_next_version_kind type k s Hk), D, B. reflexivity.
  - rewrite (Bun_next_version_kind type k s Hk), D, B. reflexivity.
Qed.

Lemma next_version_normalises_witness :
  (Node.kind_of "patch" = Some Patch ->
   Node.next_version "patch" "01. 2 .0x1f.9-beta"
   = Normal (version (spec_increment Patch (1, 2, 31))))
  /\ (Bun.alias_of "patch" = Some Patch ->
      Bun.next_version "patch" "01. 2 .0x1f.9-beta"
      = Normal (version (spec_increment Patch (1, 2, 31)))).
Proof.
  apply (next_version_normalises "01. 2 .0x1f.9-beta" "01" " 2 " "0x1f" 1 2 31
           "patch" Patch);
    try (vm_compute; reflexivity).
  unfold safe, MAX_SAFE_INTEGER. lia.
Defined.

(** ** One run after another *)

Lemma assign_assign (key : string) (x y : value) (props : list (string * value)) :
  assign key y (assign key x props) = assign key y props.
Proof.
  induction props as [| [k v] rest IH]; simpl.
  - now rewrite String.eqb_refl.
  - destruct (String.eqb k key) eqn:E; simpl; rewrite E; [reflexivity | now rewrite IH].
Qed.

(** X11: two runs in a row add up.  If the runtime reads back the manifest
    that the first run has written, a second run starts from the version
    that the first one made: after both, the manifest is the original
    record with the twice incremented version, as one assignment would
    leave it, and each run has logged its own line. *)
Theorem two_runs_compose (rt : runtime) (t1 t2 : string) (k1 k2 : kind) (w : world)
  (text : string) (props : list (string * value)) (v : Z * Z * Z) :
  safe v -> safe (spec_increment k1 v) ->
  manifest w = Contents text ->
  JSON_parse rt text = inl (Obj props) ->
  lookup "version" props = Some (Str (version v)) ->
  JSON_parse rt
    (JSON_stringify rt
       (Obj (assign "version" (Str (version (spec_increment k1 v))) props)))
  = inl (Obj (assign "version" (Str (version (spec_increment k1 v))) props)) ->
  (Node.kind_of t1 = Some k1 -> Node.kind_of t2 = Some k2 ->
   exists w1 w2,
     Node.updateVersion rt t1 w = (Normal tt, w1)
     /\ Node.updateVersion rt t2 w1 = (Normal tt, w2)
     /\ manifest w2
        = Contents
            (JSON_stringify rt
               (Obj (assign "version"
                       (Str (version (spec_increment k2 (spec_increment k1 v)))) props)))
     /\ stdout w2
        = (stdout w
             ++ [success_message (Str (version v))
                   (Str (version (spec_increment k1 v)));
                 success_message (Str (version (spec_increment k1 v)))
                   (Str (version (spec_increment k2 (spec_increment k1 v))))])%list)
  /\ (Bun.alias_of t1 = Some k1 -> Bun.alias_of t2 = Some k2 ->
      exists w1 w2,
        Bun.updateVersion rt t1 w = (Normal tt, w1)
        /\ Bun.updateVersion rt t2 w1 = (Normal tt, w2)
        /\ manifest w2
           = Contents
               (JSON_stringify rt
                  (Obj (assign "version"
                          (Str (version (spec_increment k2 (spec_increment k1 v)))) props)))
        /\ stdout w2
           = (stdout w
                ++ [success_message (Str (version v))
                      (Str (version (spec_increment k1 v)));
                    success_message (Str (version (spec_increment k1 v)))
                      (Str (version (spec_increment k2 (spec_increment k1 v))))])%list).
Proof.
  intros Hs Hs1 Hm Hp Hv Hback.
  set (v1 := spec_increment k1 v) in *. set (v2 := spec_increment k2 v1).
  set (props1 := assign "version" (Str (version v1)) props) in *.
  set (w1 := updated rt props (version v) (version v1) w).
  assert (Hm1 : manifest w1 = Contents (JSON_stringify rt (Obj props1))) by reflexivity.
  assert (Hv1 : lookup "version" props1 = Some (Str (version v1)))
    by apply lookup_assign_same.
  split; intros Hk1 Hk2; exists w1, (updated rt props1 (version v1) (version v2) w1).
  - split; [| split; [| split]].
    + rewrite (Node_updateVersion_string rt t1 w text props _ Hm Hp Hv).
      now rewrite (Node_next_version_rule v t1 k1).
    + rewrite (Node_updateVersion_string rt t2 w1 _ props1 _ Hm1 Hback Hv1).
      now rewrite (Node_next_version_rule v1 t2 k2).
    + unfold updated, props1. cbn [manifest console_log set_manifest].
      now rewrite assign_assign.
    + unfold w1. rewrite !stdout_updated, <- app_assoc. reflexivity.
  - split; [| split; [| split]].
    + rewrite (Bun_updateVersion_string rt t1 w text props _ Hm Hp Hv).
      now rewrite (Bun_next_version_rule v t1 k1).
    + rewrite (Bun_updateVersion_string rt t2 w1 _ props1 _ Hm1 Hback Hv1).
      now rewrite (Bun_next_version_rule v1 t2 k2).
    + unfold updated, props1. cbn [manifest console_log set_manifest].
      now rewrite assign_assign.
    + unfold w1. rewrite !stdout_updated, <- app_assoc. reflexivity.
Qed.

Lemma two_runs_compose_witness :
  exists w1 w2,
    Node.updateVersion rerun_runtime "minor" (scenario_world "1.2.3") = (Normal tt, w1)
    /\ Node.updateVersion rerun_runtime "patch" w1 = (Normal tt, w2)
    /\ manifest w2
       = Contents
           (JSON_stringify rerun_runtime
              (Obj (assign "version"
                      (Str (version (spec_increment Patch (spec_increment Minor (1, 2, 3)))))
                      (scenario_props "1.2.3"))))
    /\ stdout w2
       = (stdout (scenario_world "1.2.3")
            ++ [success_message (Str (version (1, 2, 3)))
                  (Str (version (spec_increment Minor (1, 2, 3))));
                success_message (Str (version (spec_increment Minor (1, 2, 3))))
                  (Str (version (spec_increment Patch (spec_increment Minor (1, 2, 3)))))])%list.
Proof.
  assert (Hs : safe (1, 2, 3)) by (unfold safe, MAX_SAFE_INTEGER; lia).
  assert (Hs1 : safe (spec_increment Minor (1, 2, 3)))
    by (unfold safe, MAX_SAFE_INTEGER; simpl; lia).
  destruct (two_runs_compose rerun_runtime "minor" "patch" Minor Patch
              (scenario_world "1.2.3") (scenario_text "1.2.3") (scenario_props "1.2.3")
              (1, 2, 3) Hs Hs1 eq_refl eq_refl eq_refl eq_refl) as [HN _].
  apply HN; reflexivity.
Defined.

(** ** Answers that name no kind *)

Lemma trim_blank (s : string) : blank s = true -> trim s = "".
Proof.
  intros H. unfold trim. rewrite <- (string_app_empty s).
  rewrite drop_ws_blank by assumption. reflexivity.
Qed.

Section InvalidAnswer.
Variable rt : runtime.
Variables (answer : string) (w : world).
Variables (text : string) (props : list (string * value)) (s : string).
Hypothesis on_disk : manifest w = Contents text.
Hypothesis parses : JSON_parse rt text = inl (Obj props).
Hypothesis has_version : lookup "version" props = Some (Str s).

Lemma Node_startScript_invalid :
  Node.kind_of (trim answer) = None ->
  Node.startScript rt answer w
  = process_exit 1
      (set_rl_open false
         (console_error invalid_type_message (rl_query prompt (set_rl_open true w)))).
Proof.
  intros Hk. unfold Node.startScript.
  rewrite (Node_updateVersion_string rt (trim answer)
             (rl_query prompt (set_rl_open true w)) text props s on_disk parses
             has_version).
  rewrite Node_next_version_unknown by assumption. reflexivity.
Qed.

Lemma Bun_startScript_invalid :
  Bun.alias_of (trim answer) = None ->
  Bun.startScript rt answer w
  = process_exit 1
      (console_error invalid_type_message (rl_query prompt (set_rl_open true w))).
Proof.
  intros Hk. unfold Bun.startScript.
  rewrite (Bun_updateVersion_string rt (trim answer)
             (rl_query prompt (set_rl_open true w)) text props s on_disk parses
             has_version).
  rewrite Bun_next_version_unknown by assumption. reflexivity.
Qed.

End InvalidAnswer.

(** X12: an answer that, trimmed, names no kind (in the Node script the
    abbreviations too) makes the program print the prompt, then the
    invalid-type message on the standard error, and exit with status 1,
    the manifest untouched: it does not ask again and falls back on no
    default. *)
Theorem invalid_answer_reported (rt : runtime) (answer : string) (w : world)
  (text : string) (props : list (string * value)) (s : string) :
  manifest w = Contents text ->
  JSON_parse rt text = inl (Obj props) ->
  lookup "version" props = Some (Str s) ->
  (~ In (trim answer) ["patch"; "minor"; "major"] ->
   manifest (Node.startScript rt answer w) = manifest w
   /\ stdout (Node.startScript rt answer w) = (stdout w ++ [prompt])%list
   /\ stderr (Node.startScript rt answer w) = (stderr w ++ [invalid_type_message])%list
   /\ exit_code (Node.startScript rt answer w) = Some 1)
  /\ (~ In (trim answer) ["p"; "patch"; "min"; "minor"; "max"; "major"] ->
      manifest (Bun.startScript rt answer w) = manifest w
      /\ stdout (Bun.startScript rt answer w) = (stdout w ++ [prompt])%list
      /\ stderr (Bun.startScript rt answer w) = (stderr w ++ [invalid_type_message])%list
      /\ exit_code (Bun.startScript rt answer w) = Some 1).
Proof.
  intros Hm Hp Hv. split; intros Hk.
  - rewrite (Node_startScript_invalid rt answer w text props s Hm Hp Hv)
      by now apply Node_kind_of_unrecognized.
    repeat split.
  - rewrite (Bun_startScript_invalid rt answer w text props s Hm Hp Hv)
      by now apply Bun_alias_of_unrecognized.
    repeat split.
Qed.

Lemma invalid_answer_reported_witness :
  manifest (Node.startScript (scenario_runtime "1.2.3") "Patch" (scenario_world "1.2.3"))
  = manifest (scenario_world "1.2.3")
  /\ stdout (Node.startScript (scenario_runtime "1.2.3") "Patch" (scenario_world "1.2.3"))
     = (stdout (scenario_world "1.2.3") ++ [prompt])%list
  /\ stderr (Node.startScript (scenario_runtime "1.2.3") "Patch" (scenario_world "1.2.3"))
     = (stderr (scenario_world "1.2.3") ++ [invalid_type_message])%list
  /\ exit_code (Node.startScript (scenario_runtime "1.2.3") "Patch" (scenario_world "1.2.3"))
     = Some 1.
Proof.
  apply (proj1 (invalid_answer_reported (scenario_runtime "1.2.3") "Patch"
                  (scenario_world "1.2.3") (scenario_text "1.2.3")
                  (scenario_props "1.2.3") "1.2.3" eq_refl eq_refl eq_refl)).
  apply not_in_by_eqb. reflexivity.
Defined.

(** X13: an empty answer, or one of white space only, is no kind: both
    scripts report the invalid-type message and leave the manifest as it
    was. *)
Theorem blank_answer_rejected (rt : runtime) (answer : string) (w : world)
  (text : string) (props : list (string * value)) (s : string) :
  blank answer = true ->
  manifest w = Contents text ->
  JSON_parse rt text = inl (Obj props) ->
  lookup "version" props = Some (Str s) ->
  (manifest (Node.startScript rt answer w) = manifest w
   /\ stderr (Node.startScript rt answer w) = (stderr w ++ [invalid_type_message])%list)
  /\ (manifest (Bun.startScript rt answer w) = manifest w
      /\ stderr (Bun.startScript rt answer w) = (stderr w ++ [invalid_type_message])%list).
Proof.
  intros Hb Hm Hp Hv. pose proof (trim_blank answer Hb) as E.
  rewrite (Node_startScript_invalid rt answer w text props s Hm Hp Hv)
    by (rewrite E; reflexivity).
  rewrite (Bun_startScript_invalid rt answer w text props s Hm Hp Hv)
    by (rewrite E; reflexivity).
  repeat split.
Qed.

Lemma blank_answer_rejected_witness :
  (manifest (Node.startScript (scenario_runtime "1.2.3") "" (scenario_world "1.2.3"))
   = manifest (scenario_world "1.2.3")
   /\ stderr (Node.startScript (scenario_runtime "1.2.3") "" (scenario_world "1.2.3"))
      = (stderr (scenario_world "1.2.3") ++ [invalid_type_message])%list)
  /\ (manifest (Bun.startScript (scenario_runtime "1.2.3") "" (scenario_world "1.2.3"))
      = manifest (scenario_world "1.2.3")
      /\ stderr (Bun.startScript (scenario_runtime "1.2.3") "" (scenario_world "1.2.3"))
         = (stderr (scenario_world "1.2.3") ++ [invalid_type_message])%list).
Proof.
  apply (blank_answer_rejected (scenario_runtime "1.2.3") "" (scenario_world "1.2.3")
           (scenario_text "1.2.3") (scenario_props "1.2.3") "1.2.3"); reflexivity.
Defined.
